(** * CRC16 EN 13757 for wm-bus: a shallow embedding of [crc16_wmbus]

    The Python function of [main.py] is transcribed statement by
    statement.  Python integers are unbounded, so they are [Z]; the
    [bytes] objects that hold text (the hex message, the hex result) are
    [string], whose characters are 8-bit; the two raw bytes that
    [struct.pack] produces are a [list byte].  The exceptions the
    function can meet are values of [exn], threaded by a small error
    monad. *)

From Stdlib Require Import ZArith List String Ascii Bool Lia.
From Stdlib Require Import Strings.Byte.
Import ListNotations.

Local Open Scope string_scope.
Local Open Scope Z_scope.

(** ** Exceptions *)

Inductive exn : Type :=
| ValueError    (* int(): invalid literal; <<: negative shift count *)
| StructError.  (* struct.pack: argument out of range *)

Inductive result (A : Type) : Type :=
| Ok (a : A)
| Raise (e : exn).

Arguments Ok {A} a.
Arguments Raise {A} e.

Definition bind {A B : Type} (r : result A) (k : A -> result B) : result B :=
  match r with
  | Ok a => k a
  | Raise e => Raise e
  end.

Notation "x <- c ;; k" := (bind c (fun x => k))
  (at level 61, c at next level, right associativity).

(** ** The runtime functions the code calls *)

Module Py.

(** Code point of a character. *)
Definition ord (c : ascii) : Z := Z.of_N (N_of_ascii c).

(** [Py_ISSPACE]: space, and the controls 9 to 13. *)
Definition isspace (c : ascii) : bool :=
  (ord c =? 32) || ((9 <=? ord c) && (ord c <=? 13)).

(** [_PyLong_DigitValue]: 0-9, then the letters in either case as
    10-35; 37 for every other character. *)
Definition digit_value (c : ascii) : Z :=
  let n := ord c in
  if (48 <=? n) && (n <=? 57) then n - 48
  else if (97 <=? n) && (n <=? 122) then n - 87
  else if (65 <=? n) && (n <=? 90) then n - 55
  else 37.

Fixpoint skip_spaces (s : string) : string :=
  match s with
  | String c s' => if isspace c then skip_spaces s' else s
  | EmptyString => s
  end.

(** The digit scan of [int(text, radix)]: digits below the radix, with
    single underscores between them.  [prev_us] tells that the previous
    character was an underscore, [acc] is the value read so far and
    [any] tells that something was consumed.  The scan stops at the
    first other character and returns the rest; a doubled or a trailing
    underscore is a syntax error ([None]). *)
Fixpoint scan_digits (radix : Z) (s : string) (prev_us : bool)
         (acc : Z) (any : bool) : option (Z * bool * string) :=
  match s with
  | String c s' =>
      if Ascii.eqb c "_" then
        if prev_us then None else scan_digits radix s' true acc true
      else if digit_value c <? radix then
        scan_digits radix s' false (acc * radix + digit_value c) true
      else if prev_us then None else Some (acc, any, s)
  | EmptyString => if prev_us then None else Some (acc, any, s)
  end.

(** The optional sign. *)
Definition take_sign (s : string) : Z * string :=
  match s with
  | String c s' =>
      if Ascii.eqb c "+" then (1, s')
      else if Ascii.eqb c "-" then (-1, s')
      else (1, s)
  | EmptyString => (1, s)
  end.

Definition skip_underscore (s : string) : string :=
  match s with
  | String c s' => if Ascii.eqb c "_" then s' else s
  | EmptyString => s
  end.

(** The optional base prefix ("0x" for 16, "0o" for 8, "0b" for 2, in
    either case), after which one underscore is allowed. *)
Definition take_prefix (radix : Z) (s : string) : string :=
  match s with
  | String c0 (String c1 s') =>
      if Ascii.eqb c0 "0"
         && (((radix =? 16) && (Ascii.eqb c1 "x" || Ascii.eqb c1 "X"))
             || ((radix =? 8) && (Ascii.eqb c1 "o" || Ascii.eqb c1 "O"))
             || ((radix =? 2) && (Ascii.eqb c1 "b" || Ascii.eqb c1 "B")))
      then skip_underscore s'
      else s
  | _ => s
  end.

Definition starts_with_underscore (s : string) : bool :=
  match s with
  | String c _ => Ascii.eqb c "_"
  | EmptyString => false
  end.

(** [int(text, radix)] on a [bytes] object, for a radix from 2 to 36:
    leading white space, sign, base prefix, digits, trailing white
    space, and nothing else; anything else is the [ValueError] "invalid
    literal for int()". *)
Definition int (text : string) (radix : Z) : result Z :=
  let (sign, s) := take_sign (skip_spaces text) in
  let s := take_prefix radix s in
  if starts_with_underscore s then Raise ValueError
  else
    match scan_digits radix s false 0 false with
    | None => Raise ValueError
    | Some (v, any, rest) =>
        if any then
          match skip_spaces rest with
          | EmptyString => Ok (sign * v)
          | String _ _ => Raise ValueError
          end
        else Raise ValueError
    end.

(** Binary digits of a positive number, most significant first, in
    front of [acc]. *)
Fixpoint bin_digits (p : positive) (acc : string) : string :=
  match p with
  | xH => String "1" acc
  | xO p' => bin_digits p' (String "0" acc)
  | xI p' => bin_digits p' (String "1" acc)
  end.

(** [bin(x)]: "0b" and the binary digits of the magnitude, after a
    minus sign when [x] is negative. *)
Definition bin (x : Z) : string :=
  match x with
  | Z0 => "0b0"
  | Zpos p => "0b" ++ bin_digits p ""
  | Zneg p => "-0b" ++ bin_digits p ""
  end.

(** The slice [s[k:]] for a [k] that is not negative. *)
Fixpoint slice_from (k : nat) (s : string) : string :=
  match k, s with
  | O, _ => s
  | S k', String _ s' => slice_from k' s'
  | S _, EmptyString => EmptyString
  end.

Definition len (s : string) : Z := Z.of_nat (String.length s).

(** [range(start, stop, -1)]: start, start - 1, ..., stop + 1. *)
Definition range_down (start stop : Z) : list Z :=
  map (fun i => start - Z.of_nat i) (seq 0 (Z.to_nat (start - stop))).

(** [x << k]: a negative shift count raises [ValueError]. *)
Definition lshift (x k : Z) : result Z :=
  if k <? 0 then Raise ValueError else Ok (Z.shiftl x k).

(** [struct.pack('<H', x)]: the two bytes of an unsigned 16-bit value,
    low byte first; [struct.error] outside 0..65535. *)
Definition byte_of_Z (x : Z) : byte :=
  match Byte.of_N (Z.to_N x) with
  | Some b => b
  | None => x00
  end.

Definition pack_H_le (x : Z) : result (list byte) :=
  if (0 <=? x) && (x <=? 65535)
  then Ok [byte_of_Z (Z.land x 255); byte_of_Z (Z.shiftr x 8)]
  else Raise StructError.

(** [binascii.hexlify]: two lower-case hex digits per byte. *)
Definition hex_digit (d : Z) : ascii :=
  ascii_of_N (Z.to_N (if d <? 10 then 48 + d else 87 + d)).

Definition byte_value (b : byte) : Z := Z.of_N (Byte.to_N b).

Fixpoint hexlify (bs : list byte) : string :=
  match bs with
  | [] => EmptyString
  | b :: bs' =>
      String (hex_digit (Z.shiftr (byte_value b) 4))
        (String (hex_digit (Z.land (byte_value b) 15)) (hexlify bs'))
  end.

End Py.

(** ** The function *)

Definition crc_bits : Z := 16.
Definition hex_radix : Z := 16.

(** Generator polynomial, g(x), without its x^16 term. *)
Definition g : Z := 0x3d65.

(** Number of characters of [bin(m)[2:]]. *)
Definition m_bitlen (m : Z) : Z := Py.len (Py.slice_from 2 (Py.bin m)).

Definition g_bitlen : Z := crc_bits.

(** One pass through the body of the [for] loop, at bit position [n]. *)
Definition loop_body (crc n : Z) : result Z :=
  mask <- Py.lshift 1 n ;;
  if Z.land crc mask =? 0 then Ok crc
  else
    g_shift <- Py.lshift g (n - g_bitlen) ;;
    Ok ((Z.lxor crc g_shift) mod 2 ^ n).

(** The [for] statement over the positions [ns]. *)
Fixpoint for_loop (ns : list Z) (crc : Z) : result Z :=
  match ns with
  | [] => Ok crc
  | n :: ns' => crc' <- loop_body crc n ;; for_loop ns' crc'
  end.

(** The remainder the loop leaves when started on [m]. *)
Definition divide (m : Z) : result Z :=
  for_loop (Py.range_down (m_bitlen m - 1) (g_bitlen - 1)) m.

Definition crc16_wmbus (message : string) : result string :=
  v <- Py.int message hex_radix ;;
  m <- Py.lshift v crc_bits ;;
  crc <- divide m ;;
  let crc := Z.lxor crc 0xFFFF in
  packed <- Py.pack_H_le crc ;;
  Ok (Py.hexlify packed).

(** The assertions of the [__main__] block. *)
Definition data1 : string := "1444AE0C7856341201078C2027780B13436587".
Definition data2 : string := "79138C7976CE000000000000000400000000000000".
Definition data3 : string := "79138C4491CE000000000000000300000000000000".

(** * Definitions used by the statements *)

(** ** The loop invariant *)

(** The loop invariant: before position [n] the remainder fits below
    bit [n + 1] (a negative start is above [- 2 ^ n]); after it, the
    remainder is not negative and fits below bit [n]. *)
Definition fits (crc n : Z) : Prop := - 2 ^ n < crc < 2 ^ (n + 1).

(** ** The long division as the specification words it *)

Module LongDivision.

(** g(x) = x^16 + x^13 + x^12 + x^11 + x^10 + x^8 + x^6 + x^5 + x^2 + 1,
    with its x^16 term. *)
Definition exponents : list Z := [16; 13; 12; 11; 10; 8; 6; 5; 2; 0].

Definition generator : Z :=
  fold_right (fun e acc => Z.lor (Z.shiftl 1 e) acc) 0 exponents.

(** [low + k - 1], ..., [low + 1], [low]. *)
Fixpoint countdown (k : nat) (low : Z) : list Z :=
  match k with
  | O => []
  | S k' => low + Z.of_nat k' :: countdown k' low
  end.

(** The bit positions from the most significant bit of [m] down to
    position 16. *)
Definition positions (m : Z) : list Z :=
  countdown (Z.to_nat (Z.log2 m + 1 - 16)) 16.

(** At position [n]: when the remainder has a 1 there, subtract (XOR)
    the generator shifted so that its x^16 bit is at [n]. *)
Definition step (rem n : Z) : Z :=
  if Z.testbit rem n then Z.lxor rem (Z.shiftl generator (n - 16)) else rem.

Definition remainder (m : Z) : Z := fold_left step (positions m) m.

(** The raw CRC of the message value [v]: the low 16 bits of the
    remainder of [v << 16]. *)
Definition raw_crc (v : Z) : Z := Z.land (remainder (Z.shiftl v 16)) 0xFFFF.

(** The product of the generator with the polynomial that has the
    exponents [ks], in GF(2)[x]: a sum (XOR) of shifted copies. *)
Definition multiple (ks : list Z) : Z :=
  fold_right (fun k acc => Z.lxor (Z.shiftl generator k) acc) 0 ks.

End LongDivision.

(** ** Complement and serialization *)

(** The final complement of the specification. *)
Definition complement (raw : Z) : Z := Z.lxor raw 0xFFFF.

(** A 16-bit value as two bytes, low byte first. *)
Definition serialize_le (c : Z) : list byte :=
  [Py.byte_of_Z (c mod 256); Py.byte_of_Z (c / 256)].

(** ** Message texts *)

Definition is_hex_digit (c : ascii) : bool := Py.digit_value c <? 16.

Fixpoint all_hex (s : string) : bool :=
  match s with
  | EmptyString => true
  | String c s' => is_hex_digit c && all_hex s'
  end.

(** The number that the digits of [s] spell in base 16, after [acc]. *)
Fixpoint hex_value (acc : Z) (s : string) : Z :=
  match s with
  | EmptyString => acc
  | String c s' => hex_value (acc * 16 + Py.digit_value c) s'
  end.

(** [k] digits "0". *)
Fixpoint zeros (k : nat) : string :=
  match k with
  | O => EmptyString
  | S k' => String "0" (zeros k')
  end.

(** The characters that can occur in a text that [int(text, 16)]
    accepts: hex digits, white space, the signs, the underscore and the
    "x" of the prefix. *)
Definition int_alphabet (c : ascii) : bool :=
  is_hex_digit c || Py.isspace c || Ascii.eqb c "+" || Ascii.eqb c "-"
  || Ascii.eqb c "_" || Ascii.eqb c "x" || Ascii.eqb c "X".

Fixpoint within_alphabet (s : string) : bool :=
  match s with
  | EmptyString => true
  | String c s' => int_alphabet c && within_alphabet s'
  end.

(** ** Toggling one bit of a message *)

(** The bytes that a text of hex digit pairs spells. *)
Fixpoint unhexlify (s : string) : list byte :=
  match s with
  | String a (String b s') =>
      Py.byte_of_Z (16 * Py.digit_value a + Py.digit_value b) :: unhexlify s'
  | _ => []
  end.




(** ** The function statement by statement, on a store of variables *)

(** Here the variables of the function are cells of a store, and every
    statement reads and writes them as the source does.  Python gives
    each call a fresh frame, the empty store; the store below is not
    cleared between calls, so a variable that the body read before
    assigning it would see what an earlier call left, and a statement
    that wrote another name would show in the store after the call.  The
    names [int], [len], [bin], [range], [hexlify] and [pack] stand for the
    library functions, as bound when the module is loaded. *)

Module Frame.

Inductive value : Type :=
| VInt (z : Z)
| VBytes (s : string).

Definition store : Type := string -> option value.

Definition update (st : store) (x : string) (v : value) : store :=
  fun y => if String.eqb x y then Some v else st y.

Inductive fault : Type :=
| Raised (e : exn)       (* an exception of the statements *)
| Unbound (x : string)   (* UnboundLocalError: read before assignment *)
| WrongType (x : string). (* TypeError: not the kind of value the operation takes *)

Inductive outcome (A : Type) : Type :=
| Done (a : A)
| Fault (f : fault).

Arguments Done {A} a.
Arguments Fault {A} f.

(** A statement: from a store to an outcome and the store it leaves. *)
Definition M (A : Type) : Type := store -> outcome A * store.

Definition ret {A : Type} (a : A) : M A := fun st => (Done a, st).

Definition seq {A B : Type} (c : M A) (k : A -> M B) : M B :=
  fun st =>
    match c st with
    | (Done a, st') => k a st'
    | (Fault f, st') => (Fault f, st')
    end.

Definition assign (x : string) (v : value) : M unit :=
  fun st => (Done tt, update st x v).

Definition read_int (x : string) : M Z :=
  fun st =>
    match st x with
    | Some (VInt z) => (Done z, st)
    | Some (VBytes _) => (Fault (WrongType x), st)
    | None => (Fault (Unbound x), st)
    end.

Definition read_bytes (x : string) : M string :=
  fun st =>
    match st x with
    | Some (VBytes s) => (Done s, st)
    | Some (VInt _) => (Fault (WrongType x), st)
    | None => (Fault (Unbound x), st)
    end.

Definition lift {A : Type} (r : result A) : M A :=
  fun st =>
    match r with
    | Ok a => (Done a, st)
    | Raise e => (Fault (Raised e), st)
    end.

Fixpoint for_each (ns : list Z) (body : Z -> M unit) : M unit :=
  match ns with
  | [] => ret tt
  | n :: ns' => seq (body n) (fun _ => for_each ns' body)
  end.

(** An outcome of the function of the embedding, as an outcome here. *)
Definition of_result {A : Type} (r : result A) : outcome A :=
  match r with
  | Ok a => Done a
  | Raise e => Fault (Raised e)
  end.

End Frame.

Notation "x <~ c ;; k" := (Frame.seq c (fun x => k))
  (at level 61, c at next level, right associativity).
Notation "c ;;; k" := (Frame.seq c (fun _ => k))
  (at level 61, right associativity).

(** The names the function assigns, its parameter among them. *)
Definition variables : list string :=
  ["message"; "crc_bits"; "hex_radix"; "g"; "m"; "crc"; "m_bitlen";
   "g_bitlen"; "n"; "g_shift"; "crc_hex"].

(** The body of the [for] loop with [n] bound to the next position. *)
Definition loop_statements (n : Z) : Frame.M unit :=
  Frame.assign "n" (Frame.VInt n) ;;;
  crc' <~ Frame.read_int "crc" ;;
  n' <~ Frame.read_int "n" ;;
  mask <~ Frame.lift (Py.lshift 1 n') ;;
  if Z.land crc' mask =? 0 then Frame.ret tt
  else
    g' <~ Frame.read_int "g" ;;
    n' <~ Frame.read_int "n" ;;
    g_bitlen' <~ Frame.read_int "g_bitlen" ;;
    g_shift <~ Frame.lift (Py.lshift g' (n' - g_bitlen')) ;;
    Frame.assign "g_shift" (Frame.VInt g_shift) ;;;
    crc' <~ Frame.read_int "crc" ;;
    g_shift' <~ Frame.read_int "g_shift" ;;
    n' <~ Frame.read_int "n" ;;
    Frame.assign "crc" (Frame.VInt ((Z.lxor crc' g_shift') mod 2 ^ n')).

(** The statements of [crc16_wmbus], called on [message]. *)
Definition crc16_wmbus_statements (message : string) : Frame.M string :=
  Frame.assign "message" (Frame.VBytes message) ;;;
  Frame.assign "crc_bits" (Frame.VInt 16) ;;;
  Frame.assign "hex_radix" (Frame.VInt 16) ;;;
  Frame.assign "g" (Frame.VInt 0x3d65) ;;;
  message' <~ Frame.read_bytes "message" ;;
  hex_radix' <~ Frame.read_int "hex_radix" ;;
  v <~ Frame.lift (Py.int message' hex_radix') ;;
  crc_bits' <~ Frame.read_int "crc_bits" ;;
  m <~ Frame.lift (Py.lshift v crc_bits') ;;
  Frame.assign "m" (Frame.VInt m) ;;;
  m' <~ Frame.read_int "m" ;;
  Frame.assign "crc" (Frame.VInt m') ;;;
  m' <~ Frame.read_int "m" ;;
  Frame.assign "m_bitlen" (Frame.VInt (Py.len (Py.slice_from 2 (Py.bin m')))) ;;;
  crc_bits' <~ Frame.read_int "crc_bits" ;;
  Frame.assign "g_bitlen" (Frame.VInt crc_bits') ;;;
  m_bitlen' <~ Frame.read_int "m_bitlen" ;;
  g_bitlen' <~ Frame.read_int "g_bitlen" ;;
  Frame.for_each (Py.range_down (m_bitlen' - 1) (g_bitlen' - 1)) loop_statements ;;;
  crc' <~ Frame.read_int "crc" ;;
  Frame.assign "crc" (Frame.VInt (Z.lxor crc' 0xFFFF)) ;;;
  crc' <~ Frame.read_int "crc" ;;
  packed <~ Frame.lift (Py.pack_H_le crc') ;;
  Frame.assign "crc_hex" (Frame.VBytes (Py.hexlify packed)) ;;;
  Frame.read_bytes "crc_hex".

(** Two stores hold the same in every cell that is no variable of the
    function. *)
Definition same_outside (st st' : Frame.store) : Prop :=
  forall x, ~ In x variables -> st' x = st x.

(** ** Start positions of the division *)

(** The division started [k] positions above bit 16. *)
Definition reduce (k : nat) (crc : Z) : Z :=
  fold_left LongDivision.step (LongDivision.countdown k 16) crc.

(** A start position that is high enough for two values at once. *)
Definition cover (a b : Z) : nat := Z.to_nat (Z.log2 a + Z.log2 b + 1).

(** A position above every shift of the list. *)
Definition above (ks : list Z) : nat := Z.to_nat (fold_right Z.max 0 ks) + 1.

(** ** Letter case, white space and the digits of the result *)

(** A capital letter as its small letter; any other character as it
    is. *)
Definition lower_char (c : ascii) : ascii :=
  if (65 <=? Py.ord c) && (Py.ord c <=? 90)
  then ascii_of_N (Z.to_N (Py.ord c + 32))
  else c.

Fixpoint lower (s : string) : string :=
  match s with
  | EmptyString => EmptyString
  | String c s' => String (lower_char c) (lower s')
  end.

Fixpoint all_space (s : string) : bool :=
  match s with
  | EmptyString => true
  | String c s' => Py.isspace c && all_space s'
  end.

(** What [int] does once the sign and the prefix are taken. *)
Definition finish (sign : Z) (s : string) : result Z :=
  if Py.starts_with_underscore s then Raise ValueError
  else
    match Py.scan_digits 16 s false 0 false with
    | None => Raise ValueError
    | Some (v, any, rest) =>
        if any then
          match Py.skip_spaces rest with
          | EmptyString => Ok (sign * v)
          | String _ _ => Raise ValueError
          end
        else Raise ValueError
    end.

(** A digit or a small letter from a to f. *)
Definition is_lower_hex (c : ascii) : bool :=
  ((48 <=? Py.ord c) && (Py.ord c <=? 57))
  || ((97 <=? Py.ord c) && (Py.ord c <=? 102)).

Fixpoint all_lower_hex (s : string) : bool :=
  match s with
  | EmptyString => true
  | String c s' => is_lower_hex c && all_lower_hex s'
  end.

(** * Properties *)

(** ** The bit length that [bin] gives *)

Lemma bin_digits_length (p : positive) (acc : string) :
  String.length (Py.bin_digits p acc)
  = (Pos.size_nat p + String.length acc)%nat.
Proof.
  revert acc.
  induction p as [p IH | p IH | ]; intros acc; simpl; try rewrite IH; simpl; lia.
Qed.

Lemma size_nat_log2 (p : positive) :
  Z.of_nat (Pos.size_nat p) = Z.log2 (Zpos p) + 1.
Proof.
  assert (E : forall q, Z.of_nat (Pos.size_nat q) = Zpos (Pos.size q)).
  { induction q as [q IH | q IH | ]; simpl Pos.size_nat; simpl Pos.size;
      rewrite ?Nat2Z.inj_succ, ?IH; lia. }
  destruct p as [p | p | ]; simpl Pos.size_nat; simpl Z.log2;
    rewrite ?Nat2Z.inj_succ, ?E; lia.
Qed.

Lemma m_bitlen_zero : m_bitlen 0 = 1.
Proof. reflexivity. Qed.

Lemma m_bitlen_pos (m : Z) : 0 < m -> m_bitlen m = Z.log2 m + 1.
Proof.
  destruct m as [ | p | p]; try lia. intros _.
  unfold m_bitlen, Py.len. simpl Py.slice_from.
  rewrite bin_digits_length. simpl String.length.
  rewrite Nat.add_0_r. apply size_nat_log2.
Qed.

(** On a negative number the slice keeps the "b" of the prefix, so the
    count is one more than the bit length of the magnitude. *)
Lemma m_bitlen_neg (m : Z) : m < 0 -> m_bitlen m = Z.log2 (- m) + 2.
Proof.
  destruct m as [ | p | p]; try lia. intros _.
  unfold m_bitlen, Py.len. simpl Py.slice_from. simpl String.length.
  rewrite bin_digits_length. simpl String.length.
  rewrite Nat.add_0_r, Nat2Z.inj_succ, size_nat_log2. simpl Z.opp. lia.
Qed.

(** ** [range(start, stop, -1)] *)

Lemma range_down_nil (start stop : Z) :
  start <= stop -> Py.range_down start stop = [].
Proof.
  intros H. unfold Py.range_down.
  replace (Z.to_nat (start - stop)) with 0%nat by lia. reflexivity.
Qed.

Lemma range_down_cons (start stop : Z) :
  stop < start ->
  Py.range_down start stop = start :: Py.range_down (start - 1) stop.
Proof.
  intros H. unfold Py.range_down.
  replace (Z.to_nat (start - stop)) with (S (Z.to_nat (start - 1 - stop))) by lia.
  simpl seq. simpl map. f_equal; [lia | ].
  rewrite <- seq_shift, map_map. apply map_ext. intros i. lia.
Qed.

(** ** The test of bit [n] *)

Lemma land_mask (crc n : Z) :
  0 <= n -> (Z.land crc (Z.shiftl 1 n) =? 0) = negb (Z.testbit crc n).
Proof.
  intros Hn. rewrite Z.shiftl_1_l.
  destruct (Z.testbit crc n) eqn:B; simpl.
  - apply Z.eqb_neq. intros E.
    apply (f_equal (fun x => Z.testbit x n)) in E.
    rewrite Z.land_spec, B, Z.pow2_bits_true, Z.bits_0 in E by lia. discriminate.
  - apply Z.eqb_eq. apply Z.bits_inj'. intros k Hk.
    rewrite Z.land_spec, Z.bits_0, Z.pow2_bits_eqb by lia.
    destruct (Z.eqb_spec n k) as [-> | ]; [rewrite B | ]; 
      rewrite ?andb_false_r; reflexivity.
Qed.

(** ** One pass of the loop *)

Lemma g_bits_high (j : Z) : 16 <= j -> Z.testbit g j = false.
Proof.
  intros H. apply Z.bits_above_log2; [unfold g; lia | ].
  change (Z.log2 g) with 13. lia.
Qed.

Lemma bits_above (x n k : Z) : 0 <= x < 2 ^ n -> n <= k -> Z.testbit x k = false.
Proof.
  intros [H0 H1] Hk.
  destruct (Z.eq_dec x 0) as [-> | Hx]; [apply Z.bits_0 | ].
  assert (0 <= n).
  { destruct (Z.le_gt_cases 0 n); [assumption | ].
    rewrite Z.pow_neg_r in H1 by lia. lia. }
  apply Z.bits_above_log2; [lia | ].
  assert (Z.log2 x < n) by (apply Z.log2_lt_pow2; lia). lia.
Qed.

Lemma bit_clear_lt (x n : Z) :
  0 <= n -> 0 <= x < 2 ^ (n + 1) -> Z.testbit x n = false -> x < 2 ^ n.
Proof.
  intros Hn [H0 H1] B.
  destruct (Z.lt_ge_cases x (2 ^ n)) as [ | Hge]; [assumption | exfalso].
  assert (L : Z.log2 x = n).
  { apply Z.log2_unique; [lia | ].
    replace (Z.succ n) with (n + 1) by lia. lia. }
  assert (0 < x) by (pose proof (Z.pow_pos_nonneg 2 n); lia).
  rewrite <- L, Z.bit_log2 in B by lia. discriminate.
Qed.

Lemma bit_set_neg (x n : Z) : - 2 ^ n < x < 0 -> Z.testbit x n = true.
Proof.
  intros [H0 H1].
  assert (0 <= n).
  { destruct (Z.le_gt_cases 0 n); [assumption | ].
    rewrite Z.pow_neg_r in H0 by lia. lia. }
  apply Z.bits_iff_neg; [ | assumption].
  apply Z.log2_lt_pow2; lia.
Qed.

(** The body never raises at a position of the loop, and what it does
    depends on bit [n] alone. *)
Lemma loop_body_eq (crc n : Z) :
  16 <= n ->
  loop_body crc n
  = Ok (if Z.testbit crc n
        then Z.lxor crc (Z.shiftl g (n - 16)) mod 2 ^ n
        else crc).
Proof.
  intros Hn. unfold loop_body, Py.lshift, g_bitlen, crc_bits.
  destruct (Z.ltb_spec n 0); [lia | ]. simpl bind.
  rewrite land_mask by lia.
  destruct (Z.testbit crc n); simpl; [ | reflexivity].
  destruct (Z.ltb_spec (n - 16) 0); [lia | ]. reflexivity.
Qed.

Lemma loop_body_fits (crc n : Z) :
  16 <= n -> fits crc n ->
  exists crc', loop_body crc n = Ok crc' /\ 0 <= crc' < 2 ^ n.
Proof.
  intros Hn [H0 H1]. rewrite loop_body_eq by assumption.
  assert (0 < 2 ^ n) by (apply Z.pow_pos_nonneg; lia).
  destruct (Z.testbit crc n) eqn:B.
  - eexists; split; [reflexivity | ]. apply Z.mod_pos_bound. assumption.
  - eexists; split; [reflexivity | ].
    destruct (Z.lt_ge_cases crc 0) as [Hneg | Hpos].
    + rewrite bit_set_neg in B by lia. discriminate.
    + split; [assumption | ]. apply bit_clear_lt; try assumption; lia.
Qed.

Lemma for_loop_range (k : nat) :
  forall start crc,
    Z.to_nat (start - 15) = k -> fits crc start ->
    exists r, for_loop (Py.range_down start 15) crc = Ok r
              /\ (15 < start -> 0 <= r < 2 ^ 16)
              /\ (start <= 15 -> r = crc).
Proof.
  induction k as [ | k IH]; intros start crc Hk Hfit.
  - rewrite range_down_nil by lia. exists crc. simpl. repeat split; lia.
  - rewrite range_down_cons by lia. simpl for_loop.
    destruct (loop_body_fits crc start) as (crc' & E & B); [lia | assumption | ].
    rewrite E. simpl bind.
    destruct (IH (start - 1) crc') as (r & Er & Hhi & Hlo); [lia | | ].
    { unfold fits. replace (start - 1 + 1) with start by lia.
      assert (0 < 2 ^ (start - 1)) by (apply Z.pow_pos_nonneg; lia). lia. }
    exists r. split; [assumption | ]. split; [ | lia].
    intros _. destruct (Z.eq_dec start 16) as [-> | ].
    + rewrite Hlo by lia. exact B.
    + apply Hhi. lia.
Qed.

(** The division returns a 16-bit remainder from every start value the
    function can give it: [v << 16] is 0, at least [2 ^ 16] or at most
    [- 2 ^ 16]. *)
Lemma divide_returns (v : Z) :
  exists r, divide (Z.shiftl v 16) = Ok r /\ 0 <= r < 2 ^ 16.
Proof.
  unfold divide, g_bitlen, crc_bits. change (16 - 1) with 15.
  rewrite Z.shiftl_mul_pow2 by lia. set (m := v * 2 ^ 16).
  destruct (Z.lt_trichotomy m 0) as [Hm | [Hm | Hm]].
  - assert (Hv : v < 0) by (subst m; lia).
    assert (L : 16 <= Z.log2 (- m)).
    { apply Z.log2_le_pow2; subst m; lia. }
    destruct (for_loop_range (Z.to_nat (m_bitlen m - 1 - 15)) (m_bitlen m - 1) m)
      as (r & E & Hhi & _); [reflexivity | | ].
    + rewrite m_bitlen_neg by assumption. unfold fits.
      replace (Z.log2 (- m) + 2 - 1) with (Z.succ (Z.log2 (- m))) by lia.
      pose proof (Z.log2_spec (- m) ltac:(lia)) as [_ S2].
      assert (0 < 2 ^ (Z.succ (Z.log2 (- m)) + 1)) by (apply Z.pow_pos_nonneg; lia).
      lia.
    + exists r. split; [assumption | ]. apply Hhi.
      rewrite m_bitlen_neg by assumption. lia.
  - rewrite Hm. exists 0. split; [reflexivity | lia].
  - assert (Hv : 0 < v) by (subst m; lia).
    assert (L : 16 <= Z.log2 m).
    { apply Z.log2_le_pow2; subst m; lia. }
    destruct (for_loop_range (Z.to_nat (m_bitlen m - 1 - 15)) (m_bitlen m - 1) m)
      as (r & E & Hhi & _); [reflexivity | | ].
    + rewrite m_bitlen_pos by assumption. unfold fits.
      replace (Z.log2 m + 1 - 1 + 1) with (Z.succ (Z.log2 m)) by lia.
      pose proof (Z.log2_spec m Hm) as [_ S2].
      assert (0 < 2 ^ (Z.log2 m + 1 - 1)) by (apply Z.pow_pos_nonneg; lia).
      lia.
    + exists r. split; [assumption | ]. apply Hhi.
      rewrite m_bitlen_pos by assumption. lia.
Qed.

(** ** The loop is the long division *)

Lemma generator_g : LongDivision.generator = Z.lxor g (2 ^ 16).
Proof. reflexivity. Qed.

Lemma step_refines (crc n : Z) :
  16 <= n -> 0 <= crc < 2 ^ (n + 1) ->
  (if Z.testbit crc n then Z.lxor crc (Z.shiftl g (n - 16)) mod 2 ^ n else crc)
  = LongDivision.step crc n.
Proof.
  intros Hn Hcrc. unfold LongDivision.step.
  destruct (Z.testbit crc n) eqn:B; [ | reflexivity].
  apply Z.bits_inj'. intros k Hk.
  rewrite generator_g, Z.shiftl_lxor, !Z.lxor_spec, !Z.shiftl_spec by lia.
  rewrite Z.pow2_bits_eqb by lia.
  destruct (Z.lt_ge_cases k n) as [Hlt | Hge].
  - rewrite Z.mod_pow2_bits_low, Z.lxor_spec, Z.shiftl_spec by lia.
    destruct (Z.eqb_spec 16 (k - (n - 16))); [lia | ].
    rewrite xorb_false_r. reflexivity.
  - rewrite Z.mod_pow2_bits_high by lia.
    rewrite g_bits_high by lia. rewrite xorb_false_l.
    destruct (Z.eqb_spec 16 (k - (n - 16))) as [E | E].
    + replace k with n by lia. rewrite B. reflexivity.
    + rewrite (bits_above crc (n + 1) k) by lia. reflexivity.
Qed.

Lemma step_bound (crc n : Z) :
  16 <= n -> 0 <= crc < 2 ^ (n + 1) -> 0 <= LongDivision.step crc n < 2 ^ n.
Proof.
  intros Hn Hcrc.
  destruct (loop_body_fits crc n) as (r & E & B); [assumption | | ].
  { unfold fits. assert (0 < 2 ^ n) by (apply Z.pow_pos_nonneg; lia). lia. }
  rewrite loop_body_eq, step_refines in E by assumption.
  injection E as <-. exact B.
Qed.

Lemma for_loop_refines (k : nat) :
  forall start crc,
    Z.to_nat (start - 15) = k -> 15 <= start -> 0 <= crc < 2 ^ (start + 1) ->
    for_loop (Py.range_down start 15) crc
    = Ok (fold_left LongDivision.step (LongDivision.countdown k 16) crc)
    /\ 0 <= fold_left LongDivision.step (LongDivision.countdown k 16) crc
         < 2 ^ (start + 1 - Z.of_nat k).
Proof.
  induction k as [ | k IH]; intros start crc Hk Hs Hcrc.
  - rewrite range_down_nil by lia. simpl. split; [reflexivity | ].
    rewrite Z.sub_0_r. assumption.
  - rewrite range_down_cons by lia. simpl for_loop.
    rewrite loop_body_eq, step_refines by (assumption || lia). simpl bind.
    cbn [LongDivision.countdown fold_left].
    replace (16 + Z.of_nat k) with start by lia.
    pose proof (step_bound crc start ltac:(lia) Hcrc) as B.
    destruct (IH (start - 1) (LongDivision.step crc start)) as [E R];
      [lia | lia | replace (start - 1 + 1) with start by lia; assumption | ].
    split; [assumption | ].
    replace (start + 1 - Z.of_nat (S k)) with (start - 1 + 1 - Z.of_nat k) by lia.
    assumption.
Qed.

(** What the division subtracts from [m] is a multiple of the generator,
    so the remainder is congruent to [m] modulo g(x). *)
Lemma remainder_congruent (m : Z) :
  exists ks, LongDivision.remainder m = Z.lxor m (LongDivision.multiple ks).
Proof.
  unfold LongDivision.remainder.
  generalize (LongDivision.positions m). intros ns. revert m.
  induction ns as [ | n ns IH]; intros crc; cbn [fold_left].
  - exists []. simpl. rewrite Z.lxor_0_r. reflexivity.
  - destruct (IH (LongDivision.step crc n)) as (ks & E). rewrite E.
    unfold LongDivision.step. destruct (Z.testbit crc n).
    + exists (n - 16 :: ks). cbn [LongDivision.multiple fold_right].
      rewrite Z.lxor_assoc. reflexivity.
    + exists ks. reflexivity.
Qed.

(** C2. The loop of [crc16_wmbus] is the bit-serial long division of the
    specification: started on the message value shifted left by 16 bits,
    it visits the bit positions from the most significant one down to 16,
    XORs the generator (aligned at its x^16 bit with the position) into the
    remainder wherever the remainder has a 1, and leaves the raw CRC in the
    low 16 bits. *)
Theorem divide_is_long_division (v : Z) :
  0 <= v ->
  divide (Z.shiftl v crc_bits) = Ok (LongDivision.raw_crc v).
Proof.
  intros Hv. unfold LongDivision.raw_crc, LongDivision.remainder,
    LongDivision.positions, divide, g_bitlen, crc_bits.
  change (16 - 1) with 15. set (m := Z.shiftl v 16).
  assert (Hm : 0 <= m) by (subst m; apply Z.shiftl_nonneg; assumption).
  destruct (Z.eq_dec m 0) as [E0 | Hne].
  - rewrite E0. reflexivity.
  - assert (L : 16 <= Z.log2 m).
    { apply Z.log2_le_pow2; [lia | ]. subst m.
      rewrite Z.shiftl_mul_pow2 in * by lia. lia. }
    rewrite m_bitlen_pos by lia.
    destruct (for_loop_refines (Z.to_nat (Z.log2 m + 1 - 16)) (Z.log2 m + 1 - 1) m)
      as [E R]; [lia | lia | | ].
    { pose proof (Z.log2_spec m ltac:(lia)) as [_ S2].
      replace (Z.log2 m + 1 - 1 + 1) with (Z.succ (Z.log2 m)) by lia. lia. }
    rewrite E. f_equal.
    change 0xFFFF with (Z.ones 16). rewrite Z.land_ones by lia.
    symmetry. apply Z.mod_small.
    replace (Z.log2 m + 1 - 1 + 1 - Z.of_nat (Z.to_nat (Z.log2 m + 1 - 16)))
      with 16 in R by lia.
    exact R.
Qed.

(** The same at a concrete message value. *)
Lemma divide_is_long_division_witness :
  0 <= 0x1444 /\ divide (Z.shiftl 0x1444 crc_bits) = Ok (LongDivision.raw_crc 0x1444).
Proof. split; [lia | apply (divide_is_long_division 0x1444); lia]. Defined.

(** ** Message texts made of hex digits *)

Lemma hex_digit_plain (c : ascii) :
  is_hex_digit c = true ->
  Py.isspace c = false /\ Ascii.eqb c "_" = false /\ Ascii.eqb c "+" = false
  /\ Ascii.eqb c "-" = false /\ Ascii.eqb c "x" = false /\ Ascii.eqb c "X" = false.
Proof.
  intros H.
  assert (R : 48 <= Py.ord c <= 57 \/ 97 <= Py.ord c <= 102 \/ 65 <= Py.ord c <= 70).
  { unfold is_hex_digit, Py.digit_value in H.
    destruct (Z.leb_spec 48 (Py.ord c)), (Z.leb_spec (Py.ord c) 57),
      (Z.leb_spec 97 (Py.ord c)), (Z.leb_spec (Py.ord c) 122),
      (Z.leb_spec 65 (Py.ord c)), (Z.leb_spec (Py.ord c) 90);
      simpl in H; apply Z.ltb_lt in H; lia. }
  assert (N : forall d : ascii, Py.ord d <> Py.ord c -> Ascii.eqb c d = false).
  { intros d Hd. destruct (Ascii.eqb_spec c d) as [-> | ]; congruence. }
  repeat split; try (apply N; vm_compute Py.ord at 1; lia).
  unfold Py.isspace.
  destruct (Z.eqb_spec (Py.ord c) 32), (Z.leb_spec 9 (Py.ord c)),
    (Z.leb_spec (Py.ord c) 13); simpl; try reflexivity; lia.
Qed.

Lemma scan_all_hex (s : string) :
  forall acc any,
    all_hex s = true ->
    Py.scan_digits 16 s false acc any
    = Some (hex_value acc s,
            match s with EmptyString => any | String _ _ => true end,
            EmptyString).
Proof.
  induction s as [ | c s IH]; intros acc any H; simpl in *.
  - reflexivity.
  - apply andb_prop in H as [Hc Hs].
    destruct (hex_digit_plain c Hc) as (_ & -> & _).
    unfold is_hex_digit in Hc. rewrite Hc, IH by assumption.
    destruct s; reflexivity.
Qed.

(** On a non-empty text of hex digits [int(text, 16)] returns the number
    the digits spell. *)
Lemma int_all_hex (s : string) :
  s <> EmptyString -> all_hex s = true ->
  Py.int s hex_radix = Ok (hex_value 0 s).
Proof.
  intros Hne H. destruct s as [ | c s]; [congruence | ].
  pose proof H as H'. simpl in H'. apply andb_prop in H' as [Hc Hs].
  destruct (hex_digit_plain c Hc) as (Sp & Us & Pl & Mi & _).
  unfold Py.int, hex_radix.
  assert (E1 : Py.skip_spaces (String c s) = String c s) by (simpl; rewrite Sp; reflexivity).
  assert (E2 : Py.take_sign (String c s) = (1, String c s)).
  { unfold Py.take_sign. rewrite Pl, Mi. reflexivity. }
  assert (E3 : Py.take_prefix 16 (String c s) = String c s).
  { unfold Py.take_prefix. destruct s as [ | c1 s1]; [reflexivity | ].
    simpl in Hs. apply andb_prop in Hs as [Hc1 _].
    destruct (hex_digit_plain c1 Hc1) as (_ & _ & _ & _ & -> & ->).
    simpl. rewrite andb_false_r. reflexivity. }
  rewrite E1, E2, E3. simpl Py.starts_with_underscore. rewrite Us.
  rewrite scan_all_hex by assumption. simpl.
  destruct (hex_value _ s); reflexivity.
Qed.

Lemma all_hex_zeros (k : nat) (s : string) :
  all_hex (zeros k ++ s) = all_hex s.
Proof. induction k as [ | k IH]; simpl; [reflexivity | exact IH]. Qed.

Lemma hex_value_zeros (k : nat) (s : string) :
  hex_value 0 (zeros k ++ s) = hex_value 0 s.
Proof. induction k as [ | k IH]; simpl; [reflexivity | exact IH]. Qed.

Lemma zeros_app_nonempty (k : nat) (s : string) :
  s <> EmptyString -> zeros k ++ s <> EmptyString.
Proof. intros H. destruct k; simpl; [assumption | discriminate]. Qed.

Lemma leading_zeros_ignored_any (k : nat) (message : string) :
  message <> EmptyString -> all_hex message = true ->
  crc16_wmbus (zeros k ++ message) = crc16_wmbus message.
Proof.
  intros Hne H. unfold crc16_wmbus.
  rewrite (int_all_hex message) by assumption.
  rewrite (int_all_hex (zeros k ++ message)).
  - rewrite hex_value_zeros. reflexivity.
  - apply zeros_app_nonempty. assumption.
  - rewrite all_hex_zeros. assumption.
Qed.

(** C10. In front of a non-empty message of hex digits, any number of "0"
    digits leaves the result of [crc16_wmbus] unchanged: the loop bound
    comes from the bit length of the decoded number, which leading zeros
    do not change. *)
Theorem leading_zeros_ignored (k : nat) (message : string) :
  message <> EmptyString -> all_hex message = true ->
  Py.int (zeros k ++ message) hex_radix = Py.int message hex_radix
  /\ crc16_wmbus (zeros k ++ message) = crc16_wmbus message.
Proof.
  intros Hne H. split; [ | apply leading_zeros_ignored_any; assumption].
  rewrite (int_all_hex message) by assumption.
  rewrite (int_all_hex (zeros k ++ message)).
  - rewrite hex_value_zeros. reflexivity.
  - apply zeros_app_nonempty. assumption.
  - rewrite all_hex_zeros. assumption.
Qed.

Lemma leading_zeros_ignored_witness :
  Py.int (zeros 2 ++ data1) hex_radix = Py.int data1 hex_radix
  /\ crc16_wmbus (zeros 2 ++ data1) = crc16_wmbus data1.
Proof.
  apply (leading_zeros_ignored 2 data1); [discriminate | vm_compute; reflexivity].
Defined.

(** ** The complement is in the range of [pack] *)

Lemma lxor_bound (a b n : Z) :
  0 <= a < 2 ^ n -> 0 <= b < 2 ^ n -> 0 <= Z.lxor a b < 2 ^ n.
Proof.
  intros Ha Hb.
  destruct (Z.eq_dec a 0) as [-> | Ha0]; [rewrite Z.lxor_0_l; assumption | ].
  destruct (Z.eq_dec b 0) as [-> | Hb0]; [rewrite Z.lxor_0_r; assumption | ].
  assert (N : 0 <= Z.lxor a b) by (apply Z.lxor_nonneg; lia).
  split; [assumption | ].
  destruct (Z.eq_dec (Z.lxor a b) 0) as [-> | Hne]; [lia | ].
  apply Z.log2_lt_pow2; [lia | ].
  pose proof (Z.log2_lxor a b ltac:(lia) ltac:(lia)) as L.
  assert (Z.log2 a < n) by (apply Z.log2_lt_pow2; lia).
  assert (Z.log2 b < n) by (apply Z.log2_lt_pow2; lia).
  lia.
Qed.

Lemma complement_bound (raw : Z) :
  0 <= raw < 2 ^ 16 -> 0 <= complement raw < 2 ^ 16.
Proof.
  intros H. apply lxor_bound; [assumption | ].
  change (2 ^ 16) with 65536. lia.
Qed.

Lemma pack_serialize (c : Z) :
  0 <= c < 2 ^ 16 -> Py.pack_H_le c = Ok (serialize_le c).
Proof.
  intros H. unfold Py.pack_H_le, serialize_le.
  destruct (Z.leb_spec 0 c); [ | lia].
  destruct (Z.leb_spec c 65535); [ | lia]. simpl andb. cbv iota.
  change 255 with (Z.ones 8). rewrite Z.land_ones by lia.
  rewrite Z.shiftr_div_pow2 by lia. reflexivity.
Qed.

Lemma byte_of_Z_value (x : Z) :
  0 <= x < 256 -> Py.byte_value (Py.byte_of_Z x) = x.
Proof.
  intros H. unfold Py.byte_value, Py.byte_of_Z.
  destruct (Byte.of_N (Z.to_N x)) as [b | ] eqn:E.
  - apply Byte.to_of_N in E. rewrite E. lia.
  - apply Byte.of_N_None_iff in E. lia.
Qed.

Lemma serialize_le_values (c : Z) :
  0 <= c < 2 ^ 16 ->
  map Py.byte_value (serialize_le c) = [c mod 256; c / 256].
Proof.
  intros H. unfold serialize_le. cbn [map].
  change (2 ^ 16) with 65536 in H.
  rewrite !byte_of_Z_value; [reflexivity | | ].
  - split; [apply Z.div_pos; lia | apply Z.div_lt_upper_bound; lia].
  - apply Z.mod_pos_bound. lia.
Qed.

Lemma int_raises_value_error (text : string) (radix : Z) (e : exn) :
  Py.int text radix = Raise e -> e = ValueError.
Proof.
  unfold Py.int.
  destruct (Py.take_sign (Py.skip_spaces text)) as [sign s].
  destruct (Py.starts_with_underscore _); [congruence | ].
  destruct (Py.scan_digits _ _ _ _ _) as [[[v any] rest] | ]; [ | congruence].
  destruct any; [ | congruence].
  destruct (Py.skip_spaces rest); congruence.
Qed.

(** Once [int] has accepted the text, nothing raises: the loop leaves a
    16-bit remainder, and its complement is in the range of [pack]. *)
Lemma crc16_wmbus_accepted (message : string) (v : Z) :
  Py.int message hex_radix = Ok v ->
  exists raw,
    divide (Z.shiftl v crc_bits) = Ok raw /\ 0 <= raw < 2 ^ 16
    /\ crc16_wmbus message = Ok (Py.hexlify (serialize_le (complement raw))).
Proof.
  intros E. destruct (divide_returns v) as (raw & D & B).
  exists raw. split; [exact D | ]. split; [exact B | ].
  unfold crc16_wmbus. rewrite E. cbn [bind].
  change (Py.lshift v crc_bits) with (Ok (Z.shiftl v 16)). cbn [bind].
  rewrite D. cbn [bind].
  fold (complement raw). rewrite pack_serialize by (apply complement_bound; exact B).
  reflexivity.
Qed.

Lemma crc16_wmbus_rejected (message : string) (e : exn) :
  Py.int message hex_radix = Raise e -> crc16_wmbus message = Raise ValueError.
Proof.
  intros E. unfold crc16_wmbus. rewrite E.
  apply int_raises_value_error in E. subst e. reflexivity.
Qed.

(** C1. The three assertions of the [__main__] block hold. *)
Theorem known_vectors :
  crc16_wmbus "1444AE0C7856341201078C2027780B13436587" = Ok "c57a"
  /\ crc16_wmbus "79138C7976CE000000000000000400000000000000" = Ok "bb52"
  /\ crc16_wmbus "79138C4491CE000000000000000300000000000000" = Ok "1170".
Proof. repeat split; vm_compute; reflexivity. Qed.

(** C5. Whatever the message, a value that [crc16_wmbus] returns is the
    hex text of exactly two bytes, which hold a 16-bit number. *)
Theorem result_is_two_bytes (message out : string) :
  crc16_wmbus message = Ok out ->
  exists c packed,
    0 <= c < 2 ^ 16 /\ packed = serialize_le c /\ List.length packed = 2%nat
    /\ out = Py.hexlify packed /\ String.length out = 4%nat.
Proof.
  intros H. destruct (Py.int message hex_radix) as [v | e] eqn:E.
  - destruct (crc16_wmbus_accepted message v E) as (raw & _ & B & R).
    rewrite R in H. injection H as <-.
    exists (complement raw), (serialize_le (complement raw)).
    repeat split; try reflexivity; apply complement_bound; exact B.
  - rewrite (crc16_wmbus_rejected message e E) in H. discriminate.
Qed.

Lemma result_is_two_bytes_witness :
  exists c packed,
    0 <= c < 2 ^ 16 /\ packed = serialize_le c /\ List.length packed = 2%nat
    /\ "c57a" = Py.hexlify packed /\ String.length "c57a" = 4%nat.
Proof. apply (result_is_two_bytes data1 "c57a"). vm_compute. reflexivity. Defined.

(** C7. For every message that [int] accepts, the output is the raw
    16-bit remainder of the division, complemented by XOR with 0xFFFF and
    serialized as two bytes, low byte first (then written in hex). *)
Theorem output_is_complement_le (message : string) (v : Z) :
  Py.int message hex_radix = Ok v ->
  exists raw low high,
    divide (Z.shiftl v crc_bits) = Ok raw /\ 0 <= raw < 2 ^ 16
    /\ Py.byte_value low = Z.lxor raw 0xFFFF mod 256
    /\ Py.byte_value high = Z.lxor raw 0xFFFF / 256
    /\ crc16_wmbus message = Ok (Py.hexlify [low; high]).
Proof.
  intros E. destruct (crc16_wmbus_accepted message v E) as (raw & D & B & R).
  pose proof (serialize_le_values _ (complement_bound raw B)) as V.
  unfold serialize_le in V. cbn [map] in V. injection V as V0 V1.
  exists raw, (Py.byte_of_Z (complement raw mod 256)),
    (Py.byte_of_Z (complement raw / 256)).
  repeat split; try assumption; apply B.
Qed.

Lemma output_is_complement_le_witness :
  exists raw low high,
    divide (Z.shiftl 0x79138C7976CE000000000000000400000000000000 crc_bits) = Ok raw
    /\ 0 <= raw < 2 ^ 16
    /\ Py.byte_value low = Z.lxor raw 0xFFFF mod 256
    /\ Py.byte_value high = Z.lxor raw 0xFFFF / 256
    /\ crc16_wmbus data2 = Ok (Py.hexlify [low; high]).
Proof.
  apply (output_is_complement_le data2 0x79138C7976CE000000000000000400000000000000).
  vm_compute. reflexivity.
Defined.

(** ** What [int] accepts *)

Ltac in_alphabet :=
  unfold int_alphabet; rewrite !orb_true_iff; tauto.

Lemma skip_spaces_alphabet (s : string) :
  within_alphabet (Py.skip_spaces s) = true -> within_alphabet s = true.
Proof.
  induction s as [ | c s IH]; simpl; [trivial | ].
  destruct (Py.isspace c) eqn:Sp; [ | trivial].
  intros H. rewrite IH by assumption. rewrite andb_true_r. in_alphabet.
Qed.

Lemma only_spaces_alphabet (s : string) :
  Py.skip_spaces s = EmptyString -> within_alphabet s = true.
Proof.
  induction s as [ | c s IH]; simpl; [trivial | ].
  destruct (Py.isspace c) eqn:Sp; [ | discriminate].
  intros H. rewrite IH by assumption. rewrite andb_true_r. in_alphabet.
Qed.

Lemma take_sign_alphabet (s : string) :
  within_alphabet (snd (Py.take_sign s)) = true -> within_alphabet s = true.
Proof.
  destruct s as [ | c s]; simpl; [trivial | ].
  destruct (Ascii.eqb c "+") eqn:Pl; simpl.
  - intros ->. rewrite andb_true_r. in_alphabet.
  - destruct (Ascii.eqb c "-") eqn:Mi; simpl; [ | trivial].
    intros ->. rewrite andb_true_r. in_alphabet.
Qed.

Lemma skip_underscore_alphabet (s : string) :
  within_alphabet (Py.skip_underscore s) = true -> within_alphabet s = true.
Proof.
  destruct s as [ | c s]; simpl; [trivial | ].
  destruct (Ascii.eqb c "_") eqn:Us; simpl; [ | trivial].
  intros ->. rewrite andb_true_r. in_alphabet.
Qed.

Lemma take_prefix_alphabet (s : string) :
  within_alphabet (Py.take_prefix 16 s) = true -> within_alphabet s = true.
Proof.
  destruct s as [ | c0 [ | c1 s]]; try (simpl; trivial; fail).
  unfold Py.take_prefix.
  destruct (Ascii.eqb_spec c0 "0") as [-> | ]; [ | trivial].
  simpl andb. rewrite !orb_false_r.
  destruct (Ascii.eqb c1 "x" || Ascii.eqb c1 "X") eqn:X; [ | trivial].
  intros H. apply skip_underscore_alphabet in H.
  cbn [within_alphabet]. rewrite H, andb_true_r.
  apply andb_true_intro. split; [reflexivity | ].
  apply orb_prop in X. in_alphabet.
Qed.

Lemma scan_digits_alphabet (s : string) :
  forall prev_us acc any v any' rest,
    Py.scan_digits 16 s prev_us acc any = Some (v, any', rest) ->
    within_alphabet rest = true -> within_alphabet s = true.
Proof.
  induction s as [ | c s IH]; intros prev_us acc any v any' rest; simpl.
  - destruct prev_us; [discriminate | ]. intros [= _ _ <-]. trivial.
  - destruct (Ascii.eqb c "_") eqn:Us.
    + destruct prev_us; [discriminate | ]. intros H R.
      rewrite (IH _ _ _ _ _ _ H R), andb_true_r. in_alphabet.
    + destruct (Py.digit_value c <? 16) eqn:D.
      * intros H R. rewrite (IH _ _ _ _ _ _ H R), andb_true_r.
        fold (is_hex_digit c) in D. in_alphabet.
      * destruct prev_us; [discriminate | ]. intros [= _ _ <-]. trivial.
Qed.

(** A text that [int(text, 16)] accepts holds no character outside the
    alphabet. *)
Lemma int_accepts_alphabet (text : string) (v : Z) :
  Py.int text hex_radix = Ok v -> within_alphabet text = true.
Proof.
  unfold Py.int, hex_radix. intros H.
  apply skip_spaces_alphabet, take_sign_alphabet.
  destruct (Py.take_sign (Py.skip_spaces text)) as [sign s]. simpl snd.
  apply take_prefix_alphabet.
  destruct (Py.starts_with_underscore _); [discriminate | ].
  destruct (Py.scan_digits _ _ _ _ _) as [[[w any] rest] | ] eqn:Sc; [ | discriminate].
  destruct any; [ | discriminate].
  destruct (Py.skip_spaces rest) eqn:Sk; [ | discriminate].
  apply (scan_digits_alphabet _ _ _ _ _ _ _ Sc).
  apply only_spaces_alphabet. exact Sk.
Qed.

(** ** Totality, the empty message and malformed texts *)

(** The empty message: [int] rejects the empty text, so the function
    raises instead of returning. *)
Lemma empty_message_raises : crc16_wmbus "" = Raise ValueError.
Proof. reflexivity. Qed.

(** C3, amended. For every message that [int(message, 16)] accepts, and
    so for every non-empty text of hex digits, the computation produces a
    16-bit result and raises nothing; a text that [int] rejects makes the
    function raise [ValueError]. *)
Theorem total_on_accepted_text (message : string) :
  (forall v, Py.int message hex_radix = Ok v ->
     exists c, 0 <= c < 2 ^ 16
               /\ crc16_wmbus message = Ok (Py.hexlify (serialize_le c)))
  /\ (message <> "" -> all_hex message = true ->
      exists c, 0 <= c < 2 ^ 16
                /\ crc16_wmbus message = Ok (Py.hexlify (serialize_le c)))
  /\ (forall e, Py.int message hex_radix = Raise e ->
      crc16_wmbus message = Raise ValueError).
Proof.
  assert (A : forall v, Py.int message hex_radix = Ok v ->
     exists c, 0 <= c < 2 ^ 16
               /\ crc16_wmbus message = Ok (Py.hexlify (serialize_le c))).
  { intros v E. destruct (crc16_wmbus_accepted message v E) as (raw & _ & B & R).
    exists (complement raw). split; [apply complement_bound; exact B | exact R]. }
  split; [exact A | ]. split.
  - intros Hne H. apply (A (hex_value 0 message)). apply int_all_hex; assumption.
  - intros e E. exact (crc16_wmbus_rejected message e E).
Qed.

Lemma total_on_accepted_text_witness :
  (exists c, 0 <= c < 2 ^ 16
             /\ crc16_wmbus data3 = Ok (Py.hexlify (serialize_le c)))
  /\ crc16_wmbus " " = Raise ValueError.
Proof.
  split.
  - apply (proj1 (proj2 (total_on_accepted_text data3)));
      [discriminate | vm_compute; reflexivity].
  - apply (proj2 (proj2 (total_on_accepted_text " ")) ValueError).
    vm_compute. reflexivity.
Defined.

(** The empty message does not give the bytes FF FF. *)
Lemma empty_message_not_ffff : crc16_wmbus "" <> Ok "ffff".
Proof. discriminate. Qed.

(** C4, amended. A message that spells zero, one or more "0" digits,
    gives the complement of zero serialized low byte first, the bytes
    FF FF, returned as the text "ffff". *)
Theorem zero_message_ffff (k : nat) :
  crc16_wmbus (zeros (S k)) = Ok (Py.hexlify (serialize_le (complement 0)))
  /\ serialize_le (complement 0) = [xff; xff]
  /\ Py.hexlify [xff; xff] = "ffff".
Proof.
  split; [ | split; reflexivity].
  assert (E : Py.int (zeros (S k)) hex_radix = Ok 0).
  { replace (zeros (S k)) with (zeros k ++ "0").
    - rewrite int_all_hex.
      + rewrite hex_value_zeros. reflexivity.
      + apply zeros_app_nonempty. discriminate.
      + rewrite all_hex_zeros. reflexivity.
    - clear. induction k as [ | k IH]; [reflexivity | ].
      change (zeros (S k) ++ "0") with (String "0" (zeros k ++ "0")).
      rewrite IH. reflexivity. }
  unfold crc16_wmbus. rewrite E. reflexivity.
Qed.

(** A single hex digit, an odd number of them, is accepted, and read as
    if a "0" stood in front. *)
Lemma odd_digits_accepted :
  crc16_wmbus "1" = Ok "9ac2" /\ crc16_wmbus "01" = Ok "9ac2".
Proof. split; vm_compute; reflexivity. Qed.

(** C6, amended. A text that [int(message, 16)] rejects raises
    [ValueError] to the caller; this is so for the empty text and for
    every text with a character that is no hex digit, white space, sign,
    underscore or "x".  A non-empty text of hex digits is accepted whether
    their number is even or odd, and is read as the text with one more
    "0" in front. *)
Theorem malformed_text (message : string) :
  (forall e, Py.int message hex_radix = Raise e ->
     crc16_wmbus message = Raise ValueError)
  /\ (within_alphabet message = false -> crc16_wmbus message = Raise ValueError)
  /\ (message <> "" -> all_hex message = true ->
      exists out, crc16_wmbus message = Ok out
                  /\ crc16_wmbus (String "0" message) = Ok out).
Proof.
  split; [ | split].
  - intros e E. exact (crc16_wmbus_rejected message e E).
  - intros H. destruct (Py.int message hex_radix) as [v | e] eqn:E.
    + apply int_accepts_alphabet in E. congruence.
    + exact (crc16_wmbus_rejected message e E).
  - intros Hne H.
    pose proof (int_all_hex message Hne H) as E.
    destruct (crc16_wmbus_accepted message _ E) as (raw & _ & _ & R).
    eexists. split; [exact R | ].
    rewrite <- R. apply (leading_zeros_ignored_any 1 message Hne H).
Qed.

Lemma malformed_text_witness :
  crc16_wmbus "" = Raise ValueError
  /\ crc16_wmbus "12G4" = Raise ValueError
  /\ exists out, crc16_wmbus "123" = Ok out /\ crc16_wmbus "0123" = Ok out.
Proof.
  split; [ | split].
  - apply (proj1 (malformed_text "") ValueError). vm_compute. reflexivity.
  - apply (proj1 (proj2 (malformed_text "12G4"))). vm_compute. reflexivity.
  - apply (proj2 (proj2 (malformed_text "123")));
      [discriminate | vm_compute; reflexivity].
Defined.

(** ** Single-bit sensitivity on the known vectors *)



(** The bytes written back in hex are the same message. *)
Lemma vectors_reencoded :
  crc16_wmbus (Py.hexlify (unhexlify data1)) = Ok "c57a"
  /\ crc16_wmbus (Py.hexlify (unhexlify data2)) = Ok "bb52"
  /\ crc16_wmbus (Py.hexlify (unhexlify data3)) = Ok "1170".
Proof. repeat split; vm_compute; reflexivity. Qed.



(** ** Two invocations, and the state around them *)

Lemma same_outside_refl (st : Frame.store) : same_outside st st.
Proof. intros x _. reflexivity. Qed.

Lemma same_outside_trans (st1 st2 st3 : Frame.store) :
  same_outside st1 st2 -> same_outside st2 st3 -> same_outside st1 st3.
Proof. intros H12 H23 x Hx. rewrite (H23 x Hx). apply H12. exact Hx. Qed.

Lemma same_outside_update (st st' : Frame.store) (x : string) (v : Frame.value) :
  In x variables -> same_outside st st' -> same_outside st (Frame.update st' x v).
Proof.
  intros Hx H y Hy. unfold Frame.update.
  destruct (String.eqb_spec x y) as [-> | _]; [contradiction | apply H; exact Hy].
Qed.

Lemma update_same (st : Frame.store) (x : string) (v : Frame.value) :
  Frame.update st x v x = Some v.
Proof. unfold Frame.update. rewrite String.eqb_refl. reflexivity. Qed.

Lemma update_other (st : Frame.store) (x y : string) (v : Frame.value) :
  String.eqb x y = false -> Frame.update st x v y = st y.
Proof. intros H. unfold Frame.update. rewrite H. reflexivity. Qed.

Lemma seq_read_int (A : Type) (x : string) (z : Z) (k : Z -> Frame.M A)
      (st : Frame.store) :
  st x = Some (Frame.VInt z) -> Frame.seq (Frame.read_int x) k st = k z st.
Proof. intros H. unfold Frame.seq, Frame.read_int. rewrite H. reflexivity. Qed.

Lemma seq_read_bytes (A : Type) (x s : string) (k : string -> Frame.M A)
      (st : Frame.store) :
  st x = Some (Frame.VBytes s) -> Frame.seq (Frame.read_bytes x) k st = k s st.
Proof. intros H. unfold Frame.seq, Frame.read_bytes. rewrite H. reflexivity. Qed.

Lemma seq_assign (A : Type) (x : string) (v : Frame.value) (k : unit -> Frame.M A)
      (st : Frame.store) :
  Frame.seq (Frame.assign x v) k st = k tt (Frame.update st x v).
Proof. reflexivity. Qed.

Lemma seq_lift (A B : Type) (r : result A) (k : A -> Frame.M B) (st : Frame.store) :
  Frame.seq (Frame.lift r) k st
  = match r with
    | Ok a => k a st
    | Raise e => (Frame.Fault (Frame.Raised e), st)
    end.
Proof. unfold Frame.seq, Frame.lift. destruct r; reflexivity. Qed.

Ltac cell :=
  repeat (rewrite update_other by reflexivity);
  first [apply update_same | eassumption].

Ltac outside :=
  repeat (apply same_outside_update; [unfold variables; simpl; tauto | ]);
  try assumption; try apply same_outside_refl.

(** The loop on the store does what [for_loop] does on the value of
    [crc], and writes [n], [g_shift] and [crc] only. *)
Lemma for_each_for_loop (ns : list Z) :
  forall (st : Frame.store) (c : Z),
    st "crc" = Some (Frame.VInt c) ->
    st "g" = Some (Frame.VInt g) ->
    st "g_bitlen" = Some (Frame.VInt g_bitlen) ->
    exists st',
      Frame.for_each ns loop_statements st
      = (match for_loop ns c with
         | Ok _ => Frame.Done tt
         | Raise e => Frame.Fault (Frame.Raised e)
         end, st')
      /\ same_outside st st'
      /\ (forall r, for_loop ns c = Ok r -> st' "crc" = Some (Frame.VInt r)).
Proof.
  induction ns as [ | n ns IH]; intros st c Hc Hg Hb.
  - exists st. split; [reflexivity | ]. split; [apply same_outside_refl | ].
    intros r [= <-]. exact Hc.
  - cbn [Frame.for_each for_loop]. unfold loop_statements at 1. unfold loop_body.
    unfold Frame.seq at 1. rewrite seq_assign.
    rewrite (seq_read_int _ "crc" c) by cell.
    rewrite (seq_read_int _ "n" n) by cell.
    rewrite seq_lift.
    destruct (Py.lshift 1 n) as [mask | e]; cbn [bind].
    2:{ eexists. split; [reflexivity | ]. split; [outside | discriminate]. }
    destruct (Z.land c mask =? 0).
    + cbn [Frame.ret bind].
      destruct (IH (Frame.update st "n" (Frame.VInt n)) c) as (st' & E & O & R);
        try cell.
      exists st'. split; [exact E | ]. split; [ | exact R].
      eapply same_outside_trans; [ | exact O]. outside.
    + rewrite (seq_read_int _ "g" g) by cell.
      rewrite (seq_read_int _ "n" n) by cell.
      rewrite (seq_read_int _ "g_bitlen" g_bitlen) by cell.
      rewrite seq_lift.
      destruct (Py.lshift g (n - g_bitlen)) as [gs | e]; cbn [bind].
      2:{ eexists. split; [reflexivity | ]. split; [outside | discriminate]. }
      rewrite seq_assign.
      rewrite (seq_read_int _ "crc" c) by cell.
      rewrite (seq_read_int _ "g_shift" gs) by cell.
      rewrite (seq_read_int _ "n" n) by cell.
      unfold Frame.assign.
      match goal with
      | |- context [Frame.for_each ns loop_statements ?s] =>
          destruct (IH s (Z.lxor c gs mod 2 ^ n)) as (st' & E & O & R); try cell
      end.
      exists st'. split; [exact E | ]. split; [ | exact R].
      eapply same_outside_trans; [ | exact O]. outside.
Qed.

(** One call from any store: the outcome is that of [crc16_wmbus] on the
    message, whatever the store held, and no cell but the variables of
    the function is written. *)
Lemma statements_run (message : string) (st : Frame.store) :
  exists st',
    crc16_wmbus_statements message st
    = (Frame.of_result (crc16_wmbus message), st')
    /\ same_outside st st'.
Proof.
  unfold crc16_wmbus_statements, crc16_wmbus.
  rewrite !seq_assign.
  rewrite (seq_read_bytes _ "message" message) by cell.
  rewrite (seq_read_int _ "hex_radix" 16) by cell.
  rewrite seq_lift. fold hex_radix.
  destruct (Py.int message hex_radix) as [v | e]; cbn [bind].
  2:{ eexists. split; [reflexivity | outside]. }
  rewrite (seq_read_int _ "crc_bits" 16) by cell.
  rewrite seq_lift. fold crc_bits.
  destruct (Py.lshift v crc_bits) as [m | e]; cbn [bind].
  2:{ eexists. split; [reflexivity | outside]. }
  rewrite seq_assign.
  rewrite (seq_read_int _ "m" m) by cell. rewrite seq_assign.
  rewrite (seq_read_int _ "m" m) by cell. rewrite seq_assign.
  rewrite (seq_read_int _ "crc_bits" 16) by cell. rewrite seq_assign.
  rewrite (seq_read_int _ "m_bitlen" (m_bitlen m)) by cell.
  rewrite (seq_read_int _ "g_bitlen" g_bitlen) by cell.
  unfold Frame.seq at 1.
  match goal with
  | |- context [Frame.for_each ?ns loop_statements ?s] =>
      destruct (for_each_for_loop ns s m) as (st1 & E & O & R); try cell
  end.
  rewrite E. fold (divide m) in R |- *.
  destruct (divide m) as [crc | e] eqn:D; cbn [bind].
  2:{ eexists. split; [reflexivity | ].
      eapply same_outside_trans; [ | exact O]. outside. }
  specialize (R crc eq_refl).
  rewrite (seq_read_int _ "crc" crc) by exact R. rewrite seq_assign.
  rewrite (seq_read_int _ "crc" (Z.lxor crc 65535)) by cell.
  rewrite seq_lift.
  destruct (Py.pack_H_le (Z.lxor crc 65535)) as [packed | e]; cbn [bind].
  2:{ eexists. split; [reflexivity | ].
      apply same_outside_update; [unfold variables; simpl; tauto | ].
      eapply same_outside_trans; [ | exact O]. outside. }
  rewrite seq_assign.
  eexists. split.
  - unfold Frame.read_bytes. rewrite update_same. reflexivity.
  - do 2 (apply same_outside_update; [unfold variables; simpl; tauto | ]).
    eapply same_outside_trans; [ | exact O]. outside.
Qed.

(** A read sees what the store holds: a body that read [crc] before
    assigning it would return what an earlier call left there. *)
Lemma read_sees_store (st : Frame.store) (z : Z) :
  Frame.read_int "crc" (Frame.update st "crc" (Frame.VInt z))
  = (Frame.Done z, Frame.update st "crc" (Frame.VInt z)).
Proof. unfold Frame.read_int. rewrite update_same. reflexivity. Qed.

(** The statements evaluated on the first vector, from a store where
    other values of [crc], [g] and [n] were left. *)
Lemma stale_store_ignored :
  fst (crc16_wmbus_statements data1
         (Frame.update
            (Frame.update
               (Frame.update (fun _ => None) "crc" (Frame.VInt 0xBEEF))
               "g" (Frame.VInt 0x8005))
            "n" (Frame.VInt 3)))
  = Frame.Done "c57a".
Proof. vm_compute. reflexivity. Qed.

(** C9. Two invocations on the same message, one after the other and
    from any state of the store, return the same result, that of
    [crc16_wmbus] on the message: nothing that the store held before a
    call is read, and a call writes no cell but the variables of the
    function. *)
Theorem invocations_agree (message : string) (st : Frame.store) :
  exists st1 st2,
    crc16_wmbus_statements message st
    = (Frame.of_result (crc16_wmbus message), st1)
    /\ crc16_wmbus_statements message st1
       = (Frame.of_result (crc16_wmbus message), st2)
    /\ same_outside st st1 /\ same_outside st st2.
Proof.
  destruct (statements_run message st) as (st1 & E1 & O1).
  destruct (statements_run message st1) as (st2 & E2 & O2).
  exists st1, st2. repeat split; try assumption.
  eapply same_outside_trans; eassumption.
Qed.

(** * Further properties of the division *)

Lemma reduce_succ (k : nat) (x : Z) :
  reduce (S k) x = reduce k (LongDivision.step x (16 + Z.of_nat k)).
Proof. reflexivity. Qed.

Lemma step_above (x n : Z) :
  0 <= x < 2 ^ n -> LongDivision.step x n = x.
Proof.
  intros H. unfold LongDivision.step.
  rewrite (bits_above x n n) by lia. reflexivity.
Qed.

Lemma pow2_mono (a b : Z) : 0 <= a <= b -> 2 ^ a <= 2 ^ b.
Proof. intros H. apply Z.pow_le_mono_r; lia. Qed.

(** Starting higher than needed changes nothing. *)
Lemma reduce_from_above (k k' : nat) (x : Z) :
  (k <= k')%nat -> 0 <= x < 2 ^ (16 + Z.of_nat k) -> reduce k' x = reduce k x.
Proof.
  intros Hk Hx. induction k' as [ | k' IH].
  - replace k with 0%nat by lia. reflexivity.
  - destruct (Nat.eq_dec k (S k')) as [-> | Hne]; [reflexivity | ].
    rewrite reduce_succ, step_above; [apply IH; lia | ].
    pose proof (pow2_mono (16 + Z.of_nat k) (16 + Z.of_nat k') ltac:(lia)). lia.
Qed.

Lemma reduce_bound (k : nat) (x : Z) :
  0 <= x < 2 ^ (16 + Z.of_nat k) -> 0 <= reduce k x < 2 ^ 16.
Proof.
  intros Hx.
  destruct (for_loop_refines k (15 + Z.of_nat k) x) as [_ B]; [lia | lia | | ].
  - replace (15 + Z.of_nat k + 1) with (16 + Z.of_nat k) by lia. exact Hx.
  - replace (15 + Z.of_nat k + 1 - Z.of_nat k) with 16 in B by lia. exact B.
Qed.

Lemma below_log2 (m : Z) : 0 <= m -> m < 2 ^ (Z.log2 m + 1).
Proof.
  intros H. destruct (Z.eq_dec m 0) as [-> | ]; [reflexivity | ].
  pose proof (Z.log2_spec m ltac:(lia)) as [_ S2].
  replace (Z.log2 m + 1) with (Z.succ (Z.log2 m)) by lia. exact S2.
Qed.

(** The loop of the function computes [reduce], from any start that is
    high enough. *)
Lemma divide_reduce (k : nat) (m : Z) :
  0 <= m < 2 ^ (16 + Z.of_nat k) -> divide m = Ok (reduce k m).
Proof.
  intros Hm. unfold divide, g_bitlen, crc_bits. change (16 - 1) with 15.
  destruct (Z.eq_dec m 0) as [-> | Hne].
  - rewrite (reduce_from_above 0 k 0); [reflexivity | lia | simpl; lia].
  - rewrite m_bitlen_pos by lia.
    replace (Z.log2 m + 1 - 1) with (Z.log2 m) by lia.
    pose proof (below_log2 m ltac:(lia)) as Hlog.
    pose proof (Z.log2_nonneg m) as Hnn.
    destruct (Z.le_gt_cases (Z.log2 m) 15) as [Hlo | Hhi].
    + rewrite range_down_nil by assumption.
      rewrite (reduce_from_above 0 k m); [reflexivity | lia | ].
      pose proof (pow2_mono (Z.log2 m + 1) 16 ltac:(lia)).
      change (16 + Z.of_nat 0) with 16. lia.
    + destruct (for_loop_refines (Z.to_nat (Z.log2 m - 15)) (Z.log2 m) m)
        as [E _]; [reflexivity | lia | lia | ].
      rewrite E. f_equal. symmetry. apply reduce_from_above.
      * assert (Z.log2 m < 16 + Z.of_nat k) by (apply Z.log2_lt_pow2; lia). lia.
      * replace (16 + Z.of_nat (Z.to_nat (Z.log2 m - 15))) with (Z.log2 m + 1) by lia.
        lia.
Qed.

Lemma step_linear (a b n : Z) :
  LongDivision.step (Z.lxor a b) n
  = Z.lxor (LongDivision.step a n) (LongDivision.step b n).
Proof.
  unfold LongDivision.step. rewrite Z.lxor_spec.
  set (G := Z.shiftl LongDivision.generator (n - 16)).
  destruct (Z.testbit a n), (Z.testbit b n); simpl xorb; cbv iota.
  - rewrite (Z.lxor_comm b G), Z.lxor_assoc, <- (Z.lxor_assoc G G b).
    rewrite Z.lxor_nilpotent, Z.lxor_0_l. reflexivity.
  - rewrite !Z.lxor_assoc, (Z.lxor_comm b G). reflexivity.
  - rewrite Z.lxor_assoc. reflexivity.
  - reflexivity.
Qed.

Lemma reduce_linear (k : nat) :
  forall a b, reduce k (Z.lxor a b) = Z.lxor (reduce k a) (reduce k b).
Proof.
  induction k as [ | k IH]; intros a b; [reflexivity | ].
  rewrite !reduce_succ, step_linear. apply IH.
Qed.

Lemma cover_l (a b : Z) : 0 <= a -> 0 <= b -> 0 <= a < 2 ^ (16 + Z.of_nat (cover a b)).
Proof.
  intros Ha Hb. split; [assumption | ].
  pose proof (below_log2 a Ha). pose proof (Z.log2_nonneg a).
  pose proof (Z.log2_nonneg b).
  pose proof (pow2_mono (Z.log2 a + 1) (16 + Z.of_nat (cover a b))
                ltac:(unfold cover; lia)).
  lia.
Qed.

Lemma cover_r (a b : Z) : 0 <= a -> 0 <= b -> 0 <= b < 2 ^ (16 + Z.of_nat (cover a b)).
Proof.
  intros Ha Hb. split; [assumption | ].
  pose proof (below_log2 b Hb). pose proof (Z.log2_nonneg a).
  pose proof (Z.log2_nonneg b).
  pose proof (pow2_mono (Z.log2 b + 1) (16 + Z.of_nat (cover a b))
                ltac:(unfold cover; lia)).
  lia.
Qed.

Lemma divide_lxor (a b : Z) :
  0 <= a -> 0 <= b ->
  divide a = Ok (reduce (cover a b) a) /\ divide b = Ok (reduce (cover a b) b)
  /\ divide (Z.lxor a b)
     = Ok (Z.lxor (reduce (cover a b) a) (reduce (cover a b) b)).
Proof.
  intros Ha Hb.
  pose proof (cover_l a b Ha Hb) as Ca. pose proof (cover_r a b Ha Hb) as Cb.
  repeat split; try (apply divide_reduce; assumption).
  rewrite <- reduce_linear. apply divide_reduce. apply lxor_bound; assumption.
Qed.

(** X1. The remainder that the loop leaves is linear over XOR: dividing
    the XOR of two values that are not negative gives the XOR of their
    two remainders. *)
Theorem divide_xor_linear (a b : Z) :
  0 <= a -> 0 <= b ->
  exists ra rb,
    divide a = Ok ra /\ divide b = Ok rb /\ divide (Z.lxor a b) = Ok (Z.lxor ra rb).
Proof.
  intros Ha Hb. destruct (divide_lxor a b Ha Hb) as (Ea & Eb & Ex).
  eexists _, _. repeat split; eassumption.
Qed.

Lemma divide_xor_linear_witness :
  exists ra rb,
    divide 0x14440000 = Ok ra /\ divide 0xAE0C0000 = Ok rb
    /\ divide (Z.lxor 0x14440000 0xAE0C0000) = Ok (Z.lxor ra rb).
Proof. apply (divide_xor_linear 0x14440000 0xAE0C0000); lia. Defined.

(** ** Shifting the dividend *)

Lemma generator_value : LongDivision.generator = 81253.
Proof. reflexivity. Qed.

Lemma step_double (x n : Z) :
  16 <= n -> LongDivision.step (2 * x) (n + 1) = 2 * LongDivision.step x n.
Proof.
  intros Hn. unfold LongDivision.step.
  replace (n + 1) with (Z.succ n) by lia.
  rewrite Z.double_bits_succ.
  destruct (Z.testbit x n); [ | reflexivity].
  replace (Z.succ n - 16) with (n - 16 + 1) by lia.
  rewrite <- Z.shiftl_shiftl by lia.
  rewrite <- !(Z.mul_comm _ 2).
  change 2 with (2 ^ 1). rewrite <- !Z.shiftl_mul_pow2 by lia.
  rewrite Z.shiftl_lxor. reflexivity.
Qed.

Lemma reduce_double (k : nat) :
  forall x, reduce (S k) (2 * x) = LongDivision.step (2 * reduce k x) 16.
Proof.
  induction k as [ | k IH]; intros x; [reflexivity | ].
  rewrite (reduce_succ (S k)).
  replace (16 + Z.of_nat (S k)) with (16 + Z.of_nat k + 1) by lia.
  rewrite step_double by lia. rewrite IH, reduce_succ. reflexivity.
Qed.

Lemma step16_zero : LongDivision.step 0 16 = 0.
Proof. reflexivity. Qed.

(** The generator has the term 1, so it never cancels a shifted
    remainder. *)
Lemma step16_nonzero (r : Z) : 0 < r -> LongDivision.step (2 * r) 16 <> 0.
Proof.
  intros Hr. unfold LongDivision.step.
  destruct (Z.testbit (2 * r) 16); [ | lia].
  intros E. apply Z.lxor_eq in E.
  change (16 - 16) with 0 in E. rewrite Z.shiftl_0_r, generator_value in E. lia.
Qed.

Lemma reduce_shifted (s k : nat) (x : Z) :
  0 <= x < 2 ^ (16 + Z.of_nat k) ->
  0 <= x * 2 ^ Z.of_nat s < 2 ^ (16 + Z.of_nat (s + k))
  /\ (reduce k x = 0 -> reduce (s + k) (x * 2 ^ Z.of_nat s) = 0)
  /\ (reduce k x <> 0 -> reduce (s + k) (x * 2 ^ Z.of_nat s) <> 0).
Proof.
  intros Hx. induction s as [ | s (B & Z0 & NZ)].
  - rewrite Z.mul_1_r. simpl plus. auto.
  - assert (E : x * 2 ^ Z.of_nat (S s) = 2 * (x * 2 ^ Z.of_nat s)).
    { rewrite Nat2Z.inj_succ, Z.pow_succ_r by lia. ring. }
    rewrite E. change (S s + k)%nat with (S (s + k)).
    split; [ | split].
    + replace (16 + Z.of_nat (S (s + k))) with (Z.succ (16 + Z.of_nat (s + k))) by lia.
      rewrite Z.pow_succ_r by lia. lia.
    + intros H. rewrite reduce_double, (Z0 H). reflexivity.
    + intros H. rewrite reduce_double. apply step16_nonzero.
      pose proof (reduce_bound (s + k) _ B). specialize (NZ H). lia.
Qed.

(** An error pattern of at most 16 bits, wherever it lies, has a
    remainder that is not zero. *)
Lemma burst_remainder (p s : Z) :
  0 < p < 2 ^ 16 -> 0 <= s ->
  exists k r, 0 <= Z.shiftl p s < 2 ^ (16 + Z.of_nat k)
              /\ reduce k (Z.shiftl p s) = r /\ r <> 0.
Proof.
  intros Hp Hs.
  destruct (reduce_shifted (Z.to_nat s) 0 p) as (B & _ & NZ);
    [change (16 + Z.of_nat 0) with 16; lia | ].
  rewrite Z2Nat.id in B, NZ by assumption.
  rewrite Z.shiftl_mul_pow2 by assumption.
  exists (Z.to_nat s + 0)%nat, (reduce (Z.to_nat s + 0) (p * 2 ^ s)).
  split; [exact B | ]. split; [reflexivity | ].
  apply NZ. change (reduce 0 p) with p. lia.
Qed.

Lemma lxor_changes (a e : Z) : e <> 0 -> Z.lxor a e <> a.
Proof.
  intros He E. apply He.
  apply (f_equal (Z.lxor a)) in E.
  rewrite <- Z.lxor_assoc, Z.lxor_nilpotent, Z.lxor_0_l in E. exact E.
Qed.

Lemma divide_burst (m p s : Z) :
  0 <= m -> 0 < p < 2 ^ 16 -> 0 <= s ->
  exists r r', divide m = Ok r /\ divide (Z.lxor m (Z.shiftl p s)) = Ok r'
               /\ 0 <= r < 2 ^ 16 /\ 0 <= r' < 2 ^ 16 /\ r <> r'.
Proof.
  intros Hm Hp Hs.
  destruct (burst_remainder p s Hp Hs) as (k & r & B & E & NZ).
  destruct (divide_lxor m (Z.shiftl p s) Hm ltac:(lia)) as (Em & Ee & Ex).
  pose proof (cover_l m (Z.shiftl p s) Hm ltac:(lia)) as Cm.
  pose proof (cover_r m (Z.shiftl p s) Hm ltac:(lia)) as Ce.
  set (c := cover m (Z.shiftl p s)) in *.
  assert (R : reduce c (Z.shiftl p s) = r).
  { rewrite <- E. destruct (Nat.le_ge_cases k c).
    - apply reduce_from_above; assumption.
    - symmetry. apply reduce_from_above; assumption. }
  rewrite R in Ex.
  exists (reduce c m), (Z.lxor (reduce c m) r).
  split; [exact Em | ]. split; [exact Ex | ].
  pose proof (reduce_bound c m Cm) as Bm.
  pose proof (reduce_bound c _ Ce) as Be. rewrite R in Be.
  split; [exact Bm | ]. split; [apply lxor_bound; assumption | ].
  intros X. symmetry in X. revert X. apply lxor_changes. exact NZ.
Qed.

(** ** Reading the output back *)

Lemma digit_value_hex_digit (d : Z) :
  0 <= d < 16 -> Py.digit_value (Py.hex_digit d) = d.
Proof.
  intros H. rewrite <- (Z2Nat.id d) by lia.
  assert (Hn : (Z.to_nat d < 16)%nat) by lia.
  set (n := Z.to_nat d) in *. clearbody n.
  do 16 (destruct n as [ | n]; [reflexivity | ]). lia.
Qed.

Lemma byte_value_bound (b : byte) : 0 <= Py.byte_value b < 256.
Proof.
  unfold Py.byte_value. pose proof (Byte.to_N_bounded b). lia.
Qed.

Lemma nibbles (x : Z) :
  0 <= x < 256 ->
  0 <= Z.shiftr x 4 < 16 /\ 0 <= Z.land x 15 < 16
  /\ Z.shiftr x 4 * 16 + Z.land x 15 = x.
Proof.
  intros H. rewrite Z.shiftr_div_pow2 by lia.
  change 15 with (Z.ones 4). rewrite Z.land_ones by lia.
  change (2 ^ 4) with 16.
  pose proof (Z.div_mod x 16 ltac:(lia)).
  pose proof (Z.mod_pos_bound x 16 ltac:(lia)). lia.
Qed.

Lemma hex_value_hexlify (bs : list byte) :
  forall acc,
    hex_value acc (Py.hexlify bs)
    = fold_left (fun a b => a * 256 + Py.byte_value b) bs acc.
Proof.
  induction bs as [ | b bs IH]; intros acc; [reflexivity | ].
  cbn [Py.hexlify hex_value fold_left].
  destruct (nibbles _ (byte_value_bound b)) as (Hh & Hl & E).
  rewrite !digit_value_hex_digit by assumption.
  rewrite IH. f_equal. lia.
Qed.

Lemma all_hex_hexlify (bs : list byte) : all_hex (Py.hexlify bs) = true.
Proof.
  induction bs as [ | b bs IH]; [reflexivity | ].
  cbn [Py.hexlify all_hex]. unfold is_hex_digit.
  destruct (nibbles _ (byte_value_bound b)) as (Hh & Hl & _).
  rewrite !digit_value_hex_digit, IH by assumption.
  destruct (Z.ltb_spec (Z.shiftr (Py.byte_value b) 4) 16); [ | lia].
  destruct (Z.ltb_spec (Z.land (Py.byte_value b) 15) 16); [ | lia].
  reflexivity.
Qed.

Lemma split_16 (c : Z) :
  0 <= c < 2 ^ 16 ->
  0 <= c mod 256 < 256 /\ 0 <= c / 256 < 256 /\ c = c / 256 * 256 + c mod 256.
Proof.
  intros H. change (2 ^ 16) with 65536 in H.
  pose proof (Z.div_mod c 256 ltac:(lia)).
  pose proof (Z.mod_pos_bound c 256 ltac:(lia)).
  assert (0 <= c / 256 < 256)
    by (split; [apply Z.div_pos; lia | apply Z.div_lt_upper_bound; lia]).
  lia.
Qed.

(** The text of the two bytes of [c], read as a number: the bytes of
    [c] in swapped order. *)
Lemma hex_value_serialize (c : Z) :
  0 <= c < 2 ^ 16 ->
  hex_value 0 (Py.hexlify (serialize_le c)) = c mod 256 * 256 + c / 256.
Proof.
  intros H. rewrite hex_value_hexlify. unfold serialize_le. cbn [fold_left].
  destruct (split_16 c H) as (Hl & Hh & _).
  rewrite !byte_of_Z_value by assumption. lia.
Qed.

Lemma output_injective (c1 c2 : Z) :
  0 <= c1 < 2 ^ 16 -> 0 <= c2 < 2 ^ 16 ->
  Py.hexlify (serialize_le c1) = Py.hexlify (serialize_le c2) -> c1 = c2.
Proof.
  intros H1 H2 E. apply (f_equal (hex_value 0)) in E.
  rewrite !hex_value_serialize in E by assumption.
  destruct (split_16 c1 H1) as (? & ? & ?). destruct (split_16 c2 H2) as (? & ? & ?).
  lia.
Qed.

Lemma complement_injective (r1 r2 : Z) : complement r1 = complement r2 -> r1 = r2.
Proof.
  unfold complement. intros E.
  apply (f_equal (fun x => Z.lxor x 65535)) in E.
  rewrite !Z.lxor_assoc, Z.lxor_nilpotent, !Z.lxor_0_r in E. exact E.
Qed.

(** X2. Two messages whose values are not negative (texts without a
    minus sign) and differ by an error pattern of at most 16 bits in a row
    (a single flipped bit, or any burst that fits in 16 bits, at any
    position) never have the same checksum. *)
Theorem burst_error_detected (m1 m2 : string) (v p s : Z) :
  Py.int m1 hex_radix = Ok v ->
  Py.int m2 hex_radix = Ok (Z.lxor v (Z.shiftl p s)) ->
  0 <= v -> 0 < p < 2 ^ 16 -> 0 <= s ->
  crc16_wmbus m1 <> crc16_wmbus m2.
Proof.
  intros E1 E2 Hv Hp Hs.
  destruct (crc16_wmbus_accepted m1 _ E1) as (r1 & D1 & B1 & R1).
  destruct (crc16_wmbus_accepted m2 _ E2) as (r2 & D2 & B2 & R2).
  rewrite R1, R2. intros X'.
  assert (X : Py.hexlify (serialize_le (complement r1))
              = Py.hexlify (serialize_le (complement r2))) by congruence.
  clear X'.
  apply output_injective in X; try (apply complement_bound; assumption).
  apply complement_injective in X.
  unfold crc_bits in D1, D2.
  rewrite Z.shiftl_lxor, Z.shiftl_shiftl in D2 by assumption.
  destruct (divide_burst (Z.shiftl v 16) p (s + 16)) as (r & r' & Dr & Dr' & _ & _ & Hne);
    [apply Z.shiftl_nonneg; assumption | assumption | lia | ].
  congruence.
Qed.

Lemma burst_error_detected_witness :
  crc16_wmbus data1 <> crc16_wmbus "1444AE0C7856341201A5BF2027780B13436587".
Proof.
  apply (burst_error_detected data1 "1444AE0C7856341201A5BF2027780B13436587"
           0x1444AE0C7856341201078C2027780B13436587 0xA233 64).
  - vm_compute. reflexivity.
  - vm_compute. reflexivity.
  - lia.
  - change (2 ^ 16) with 65536. lia.
  - lia.
Defined.

(** With a minus sign the values are negative and the property fails:
    these two differ by the pattern 0x3D65 and have one checksum. *)
Lemma negative_burst_undetected :
  Z.lxor (- 0x8000) (- 0x429B) = 0x3D65
  /\ crc16_wmbus "-8000" = Ok "8068" /\ crc16_wmbus "-429B" = Ok "8068".
Proof. repeat split; vm_compute; reflexivity. Qed.

(** ** A message followed by its checksum *)

Lemma hex_value_app (s t : string) :
  forall acc, hex_value acc (s ++ t) = hex_value (hex_value acc s) t.
Proof. induction s as [ | c s IH]; intros acc; simpl; [reflexivity | apply IH]. Qed.

Lemma all_hex_app (s t : string) :
  all_hex (s ++ t) = all_hex s && all_hex t.
Proof.
  induction s as [ | c s IH]; simpl; [reflexivity | ].
  rewrite IH, andb_assoc. reflexivity.
Qed.

Lemma digit_value_nonneg (c : ascii) : 0 <= Py.digit_value c.
Proof.
  unfold Py.digit_value.
  destruct (Z.leb_spec 48 (Py.ord c)), (Z.leb_spec (Py.ord c) 57),
    (Z.leb_spec 97 (Py.ord c)), (Z.leb_spec (Py.ord c) 122),
    (Z.leb_spec 65 (Py.ord c)), (Z.leb_spec (Py.ord c) 90); simpl; lia.
Qed.

Lemma hex_value_nonneg (s : string) :
  forall acc, 0 <= acc -> 0 <= hex_value acc s.
Proof.
  induction s as [ | c s IH]; intros acc H; simpl; [assumption | ].
  apply IH. pose proof (digit_value_nonneg c). lia.
Qed.

Lemma app_nonempty (s t : string) : s <> "" -> s ++ t <> "".
Proof. destruct s; [congruence | discriminate]. Qed.

(** Sixteen more zero bits after the dividend: only the remainder of
    the dividend matters. *)
Lemma divide_shift_congruent (m r : Z) :
  0 <= m -> divide m = Ok r ->
  0 <= r < 2 ^ 16 /\ divide (Z.shiftl m 16) = divide (Z.shiftl r 16).
Proof.
  intros Hm D.
  pose proof (cover_l m 0 Hm ltac:(lia)) as Cm. set (k := cover m 0) in *.
  rewrite (divide_reduce k m Cm) in D. injection D as <-.
  pose proof (reduce_bound k m Cm) as Br. set (r := reduce k m) in *.
  split; [exact Br | ].
  assert (Cr : 0 <= r < 2 ^ (16 + Z.of_nat k)).
  { pose proof (pow2_mono 16 (16 + Z.of_nat k) ltac:(lia)). lia. }
  assert (Rr : reduce k r = r).
  { rewrite (reduce_from_above 0 k r); [reflexivity | lia | exact Br]. }
  assert (Z0 : reduce k (Z.lxor m r) = 0).
  { rewrite reduce_linear, Rr. apply Z.lxor_nilpotent. }
  destruct (reduce_shifted 16 k (Z.lxor m r)) as (_ & Zs & _);
    [apply lxor_bound; assumption | ].
  specialize (Zs Z0).
  change (Z.of_nat 16) with 16 in Zs.
  rewrite <- Z.shiftl_mul_pow2, Z.shiftl_lxor, reduce_linear in Zs by lia.
  apply Z.lxor_eq in Zs.
  destruct (reduce_shifted 16 k m Cm) as (Bm & _).
  destruct (reduce_shifted 16 k r Cr) as (Br' & _).
  change (Z.of_nat 16) with 16 in Bm, Br'.
  rewrite <- Z.shiftl_mul_pow2 in Bm, Br' by lia.
  rewrite (divide_reduce _ _ Bm), (divide_reduce _ _ Br'), Zs. reflexivity.
Qed.

Lemma bytes_of_output (lo hi : byte) (c : Z) :
  0 <= c < 2 ^ 16 ->
  Py.hexlify [lo; hi] = Py.hexlify (serialize_le c) ->
  Py.byte_value hi * 256 + Py.byte_value lo = c.
Proof.
  intros Hc E. apply (f_equal (hex_value 0)) in E.
  rewrite hex_value_serialize in E by assumption.
  rewrite hex_value_hexlify in E. cbn [fold_left] in E.
  pose proof (byte_value_bound lo). pose proof (byte_value_bound hi).
  destruct (split_16 c Hc) as (? & ? & ?). lia.
Qed.

Lemma add_below_lxor (v c : Z) :
  0 <= c < 2 ^ 16 -> v * 65536 + c = Z.lxor (Z.shiftl v 16) c.
Proof.
  intros Hc. rewrite Z.shiftl_mul_pow2 by lia. change (2 ^ 16) with 65536.
  apply Z.add_nocarry_lxor. apply Z.bits_inj'. intros n Hn.
  rewrite Z.land_spec, Z.bits_0.
  destruct (Z.lt_ge_cases n 16) as [Hlt | Hge].
  - change 65536 with (2 ^ 16). rewrite Z.mul_pow2_bits_low by lia. reflexivity.
  - rewrite (bits_above c 16 n) by lia. apply andb_false_r.
Qed.

(** X3. The receiver's check: a non-empty message of hex digits followed
    by its checksum, most significant byte first (the two returned bytes
    in swapped order), always has the checksum "995c". *)
Theorem checksum_residue (message : string) (lo hi : byte) :
  message <> "" -> all_hex message = true ->
  crc16_wmbus message = Ok (Py.hexlify [lo; hi]) ->
  crc16_wmbus (message ++ Py.hexlify [hi; lo]) = Ok "995c".
Proof.
  intros Hne Hhex Hout.
  pose proof (int_all_hex message Hne Hhex) as E.
  destruct (crc16_wmbus_accepted message _ E) as (raw & D & B & R).
  rewrite R in Hout.
  assert (Hout' : Py.hexlify [lo; hi] = Py.hexlify (serialize_le (complement raw)))
    by congruence.
  pose proof (complement_bound raw B) as Bc.
  pose proof (bytes_of_output lo hi _ Bc Hout') as V.
  set (v := hex_value 0 message) in *.
  assert (Hv : 0 <= v) by (apply hex_value_nonneg; lia).
  assert (E' : Py.int (message ++ Py.hexlify [hi; lo]) hex_radix
               = Ok (Z.lxor (Z.shiftl v 16) (complement raw))).
  { rewrite int_all_hex.
    - rewrite hex_value_app, hex_value_hexlify. cbn [fold_left]. fold v.
      rewrite <- add_below_lxor by assumption. f_equal. lia.
    - apply app_nonempty. assumption.
    - rewrite all_hex_app, Hhex, all_hex_hexlify. reflexivity. }
  destruct (crc16_wmbus_accepted _ _ E') as (raw' & D' & B' & R').
  rewrite R'.
  enough (raw' = 41830) as -> by reflexivity.
  unfold crc_bits in D, D'.
  destruct (divide_shift_congruent (Z.shiftl v 16) raw) as (_ & Sh);
    [apply Z.shiftl_nonneg; assumption | exact D | ].
  rewrite Z.shiftl_lxor in D'.
  destruct (divide_lxor (Z.shiftl (Z.shiftl v 16) 16) (Z.shiftl (complement raw) 16))
    as (Ea & Eb & Ex); [do 2 apply Z.shiftl_nonneg; assumption
                       | apply Z.shiftl_nonneg; lia | ].
  set (k := cover (Z.shiftl (Z.shiftl v 16) 16) _) in *.
  destruct (divide_lxor (Z.shiftl raw 16) (Z.shiftl (complement raw) 16))
    as (Fa & Fb & Fx); [apply Z.shiftl_nonneg; lia | apply Z.shiftl_nonneg; lia | ].
  set (k' := cover (Z.shiftl raw 16) _) in *.
  rewrite <- Z.shiftl_lxor in Fx.
  replace (Z.lxor raw (complement raw)) with 65535 in Fx.
  2:{ unfold complement. rewrite <- Z.lxor_assoc, Z.lxor_nilpotent. reflexivity. }
  change (divide (Z.shiftl 65535 16)) with (@Ok Z 41830) in Fx.
  assert (Ra : reduce k (Z.shiftl (Z.shiftl v 16) 16) = reduce k' (Z.shiftl raw 16))
    by congruence.
  assert (Rb : reduce k (Z.shiftl (complement raw) 16)
               = reduce k' (Z.shiftl (complement raw) 16)) by congruence.
  rewrite Ra, Rb in Ex. congruence.
Qed.

Lemma checksum_residue_witness :
  crc16_wmbus (data1 ++ Py.hexlify [x7a; xc5]) = Ok "995c".
Proof.
  apply (checksum_residue data1 xc5 x7a);
    [discriminate | vm_compute; reflexivity | vm_compute; reflexivity].
Defined.

(** * Further properties of the message text *)

(** ** Letter case *)

Lemma lower_char_facts (c : ascii) :
  Py.isspace (lower_char c) = Py.isspace c
  /\ Py.digit_value (lower_char c) = Py.digit_value c
  /\ Ascii.eqb (lower_char c) "_" = Ascii.eqb c "_"
  /\ Ascii.eqb (lower_char c) "+" = Ascii.eqb c "+"
  /\ Ascii.eqb (lower_char c) "-" = Ascii.eqb c "-"
  /\ Ascii.eqb (lower_char c) "0" = Ascii.eqb c "0"
  /\ (Ascii.eqb (lower_char c) "x" || Ascii.eqb (lower_char c) "X")
     = (Ascii.eqb c "x" || Ascii.eqb c "X").
Proof.
  destruct c as [[] [] [] [] [] [] [] []]; vm_compute; repeat split.
Qed.

Lemma skip_spaces_lower (s : string) :
  Py.skip_spaces (lower s) = lower (Py.skip_spaces s).
Proof.
  induction s as [ | c s IH]; [reflexivity | ]. cbn [lower Py.skip_spaces].
  destruct (lower_char_facts c) as (-> & _).
  destruct (Py.isspace c); [exact IH | reflexivity].
Qed.

Lemma take_sign_lower (s : string) :
  Py.take_sign (lower s)
  = (fst (Py.take_sign s), lower (snd (Py.take_sign s))).
Proof.
  destruct s as [ | c s]; [reflexivity | ]. cbn [lower Py.take_sign].
  destruct (lower_char_facts c) as (_ & _ & _ & -> & -> & _).
  destruct (Ascii.eqb c "+"); [reflexivity | ].
  destruct (Ascii.eqb c "-"); reflexivity.
Qed.

Lemma skip_underscore_lower (s : string) :
  Py.skip_underscore (lower s) = lower (Py.skip_underscore s).
Proof.
  destruct s as [ | c s]; [reflexivity | ]. cbn [lower Py.skip_underscore].
  destruct (lower_char_facts c) as (_ & _ & -> & _).
  destruct (Ascii.eqb c "_"); reflexivity.
Qed.

Lemma take_prefix_lower (s : string) :
  Py.take_prefix 16 (lower s) = lower (Py.take_prefix 16 s).
Proof.
  destruct s as [ | c0 [ | c1 s]]; try reflexivity.
  cbn [lower]. unfold Py.take_prefix.
  destruct (lower_char_facts c0) as (_ & _ & _ & _ & _ & -> & _).
  destruct (lower_char_facts c1) as (_ & _ & _ & _ & _ & _ & X).
  change (16 =? 16) with true. change (16 =? 8) with false.
  change (16 =? 2) with false. cbn [andb orb]. rewrite !orb_false_r, X.
  destruct (Ascii.eqb c0 "0" && (Ascii.eqb c1 "x" || Ascii.eqb c1 "X"));
    [apply skip_underscore_lower | reflexivity].
Qed.

Lemma starts_with_underscore_lower (s : string) :
  Py.starts_with_underscore (lower s) = Py.starts_with_underscore s.
Proof.
  destruct s as [ | c s]; [reflexivity | ]. cbn [lower Py.starts_with_underscore].
  destruct (lower_char_facts c) as (_ & _ & -> & _). reflexivity.
Qed.

Lemma scan_digits_lower (s : string) :
  forall prev_us acc any,
    Py.scan_digits 16 (lower s) prev_us acc any
    = match Py.scan_digits 16 s prev_us acc any with
      | Some (v, any', rest) => Some (v, any', lower rest)
      | None => None
      end.
Proof.
  induction s as [ | c s IH]; intros prev_us acc any; cbn [lower Py.scan_digits].
  - destruct prev_us; reflexivity.
  - destruct (lower_char_facts c) as (_ & -> & -> & _).
    destruct (Ascii.eqb c "_").
    + destruct prev_us; [reflexivity | apply IH].
    + destruct (Py.digit_value c <? 16); [apply IH | ].
      destruct prev_us; reflexivity.
Qed.

Lemma int_lower (text : string) :
  Py.int (lower text) hex_radix = Py.int text hex_radix.
Proof.
  unfold Py.int, hex_radix.
  rewrite skip_spaces_lower, take_sign_lower.
  destruct (Py.take_sign (Py.skip_spaces text)) as [sign s]. cbn [fst snd].
  rewrite take_prefix_lower, starts_with_underscore_lower, scan_digits_lower.
  destruct (Py.starts_with_underscore _); [reflexivity | ].
  destruct (Py.scan_digits _ _ _ _ _) as [[[v any] rest] | ]; [ | reflexivity].
  destruct any; [ | reflexivity].
  rewrite skip_spaces_lower.
  destruct (Py.skip_spaces rest); reflexivity.
Qed.

(** X4. The case of the letters does not matter: every message, valid
    or not, has the outcome of the same message in small letters. *)
Theorem case_insensitive (message : string) :
  crc16_wmbus (lower message) = crc16_wmbus message.
Proof. unfold crc16_wmbus. rewrite int_lower. reflexivity. Qed.

(** ** White space, sign, prefix and underscores around the digits *)

Lemma int_finish (text : string) :
  Py.int text hex_radix
  = finish (fst (Py.take_sign (Py.skip_spaces text)))
           (Py.take_prefix 16 (snd (Py.take_sign (Py.skip_spaces text)))).
Proof.
  unfold Py.int, hex_radix, finish.
  destruct (Py.take_sign (Py.skip_spaces text)) as [sign s]. reflexivity.
Qed.

Lemma space_plain (c : ascii) :
  Py.isspace c = true ->
  Ascii.eqb c "_" = false /\ (Py.digit_value c <? 16) = false
  /\ Ascii.eqb c "x" = false /\ Ascii.eqb c "X" = false.
Proof.
  destruct c as [[] [] [] [] [] [] [] []]; vm_compute; intros H;
    try discriminate H; repeat split.
Qed.

Lemma skip_all_space (ws s : string) :
  all_space ws = true -> Py.skip_spaces (ws ++ s) = Py.skip_spaces s.
Proof.
  induction ws as [ | c ws IH]; simpl; [reflexivity | ].
  intros H. apply andb_prop in H as [-> H]. apply IH. exact H.
Qed.

Lemma skip_only_space (ws : string) :
  all_space ws = true -> Py.skip_spaces ws = "".
Proof.
  induction ws as [ | c ws IH]; simpl; [reflexivity | ].
  intros H. apply andb_prop in H as [-> H]. apply IH. exact H.
Qed.

(** The scan reads the digits of [s], with or without an underscore
    just before them, and stops at white space or at the end. *)
Lemma scan_hex_then_space (s ws : string) :
  forall prev_us acc any,
    all_hex s = true -> all_space ws = true ->
    (prev_us = true -> s <> "") ->
    Py.scan_digits 16 (s ++ ws) prev_us acc any
    = Some (hex_value acc s,
            match s with EmptyString => any | String _ _ => true end,
            ws).
Proof.
  induction s as [ | c s IH]; intros prev_us acc any Hs Hw Hp.
  - destruct prev_us; [exfalso; apply Hp; reflexivity | ].
    destruct ws as [ | w ws]; [reflexivity | ].
    simpl in Hw. apply andb_prop in Hw as [Hw _].
    destruct (space_plain w Hw) as (U & D & _).
    simpl. rewrite U, D. reflexivity.
  - simpl in Hs. apply andb_prop in Hs as [Hc Hs].
    destruct (hex_digit_plain c Hc) as (_ & U & _).
    cbn [append Py.scan_digits hex_value]. rewrite U.
    unfold is_hex_digit in Hc. rewrite Hc.
    rewrite IH by (assumption || discriminate).
    destruct s; reflexivity.
Qed.

Lemma scan_hex_underscore (a b ws : string) :
  forall acc any,
    all_hex a = true -> a <> "" -> all_hex b = true -> b <> "" ->
    all_space ws = true ->
    Py.scan_digits 16 (a ++ String "_" (b ++ ws)) false acc any
    = Some (hex_value acc (a ++ b), true, ws).
Proof.
  induction a as [ | c a IH]; intros acc any Ha Hne Hb Hnb Hw; [congruence | ].
  simpl in Ha. apply andb_prop in Ha as [Hc Ha].
  destruct (hex_digit_plain c Hc) as (_ & U & _).
  cbn [append Py.scan_digits hex_value]. rewrite U.
  unfold is_hex_digit in Hc. rewrite Hc.
  destruct a as [ | c' a].
  - cbn [append Py.scan_digits]. change (Ascii.eqb "_" "_") with true. cbv iota.
    rewrite scan_hex_then_space by (assumption || (intros _; assumption)).
    destruct b; [congruence | reflexivity].
  - apply IH; (assumption || discriminate).
Qed.

Lemma plain_start (s ws : string) :
  all_hex s = true -> s <> "" -> all_space ws = true ->
  Py.skip_spaces (s ++ ws) = s ++ ws
  /\ Py.take_sign (s ++ ws) = (1, s ++ ws)
  /\ Py.take_prefix 16 (s ++ ws) = s ++ ws
  /\ Py.skip_underscore (s ++ ws) = s ++ ws
  /\ Py.starts_with_underscore (s ++ ws) = false.
Proof.
  intros Hs Hne Hw. destruct s as [ | c s]; [congruence | ].
  simpl in Hs. apply andb_prop in Hs as [Hc Hs].
  destruct (hex_digit_plain c Hc) as (Sp & Us & Pl & Mi & _).
  cbn [append Py.skip_spaces Py.take_sign Py.skip_underscore Py.starts_with_underscore].
  rewrite Sp, Us, Pl, Mi. repeat split.
  unfold Py.take_prefix.
  destruct (s ++ ws) as [ | c1 rest] eqn:E; [reflexivity | ].
  assert (X : Ascii.eqb c1 "x" = false /\ Ascii.eqb c1 "X" = false).
  { destruct s as [ | c' s].
    - simpl in E. subst ws. simpl in Hw. apply andb_prop in Hw as [Hw _].
      destruct (space_plain c1 Hw) as (_ & _ & X1 & X2). auto.
    - simpl in E. injection E as -> _. simpl in Hs. apply andb_prop in Hs as [Hc' _].
      destruct (hex_digit_plain c1 Hc') as (_ & _ & _ & _ & X1 & X2). auto. }
  destruct X as [-> ->]. simpl. rewrite andb_false_r. reflexivity.
Qed.

Lemma finish_plain (sign : Z) (s ws : string) :
  all_hex s = true -> s <> "" -> all_space ws = true ->
  finish sign (s ++ ws) = Ok (sign * hex_value 0 s).
Proof.
  intros Hs Hne Hw. unfold finish.
  destruct (plain_start s ws Hs Hne Hw) as (_ & _ & _ & _ & ->).
  rewrite scan_hex_then_space by (assumption || discriminate).
  destruct s; [congruence | ]. rewrite skip_only_space by assumption. reflexivity.
Qed.

Lemma int_spaced (ws1 s ws2 : string) :
  all_space ws1 = true -> all_hex s = true -> s <> "" -> all_space ws2 = true ->
  Py.int (ws1 ++ s ++ ws2) hex_radix = Ok (hex_value 0 s).
Proof.
  intros H1 Hs Hne H2. rewrite int_finish, skip_all_space by assumption.
  destruct (plain_start s ws2 Hs Hne H2) as (-> & -> & E & _).
  cbn [fst snd]. rewrite E, finish_plain by assumption.
  f_equal. apply Z.mul_1_l.
Qed.

(** X5. White space around the digits is ignored: a non-empty message
    of hex digits between any leading and trailing white space (a line
    end, say) has the checksum of the bare message. *)
Theorem surrounding_space_ignored (ws1 message ws2 : string) :
  all_space ws1 = true -> all_hex message = true -> message <> "" ->
  all_space ws2 = true ->
  crc16_wmbus (ws1 ++ message ++ ws2) = crc16_wmbus message.
Proof.
  intros H1 Hs Hne H2. unfold crc16_wmbus.
  rewrite int_spaced, int_all_hex by assumption. reflexivity.
Qed.

Lemma surrounding_space_ignored_witness :
  crc16_wmbus (" " ++ data1 ++ String "010" "") = crc16_wmbus data1.
Proof.
  apply (surrounding_space_ignored " " data1 (String "010" ""));
    try (vm_compute; reflexivity). discriminate.
Defined.

Lemma app_empty_r (s : string) : s ++ "" = s.
Proof. induction s as [ | c s IH]; simpl; [reflexivity | rewrite IH; reflexivity]. Qed.

Lemma plain_start_bare (s : string) :
  all_hex s = true -> s <> "" ->
  Py.skip_underscore s = s /\ Py.take_prefix 16 s = s
  /\ finish 1 s = Ok (hex_value 0 s) /\ finish (-1) s = Ok (- hex_value 0 s).
Proof.
  intros Hs Hne.
  destruct (plain_start s "" Hs Hne eq_refl) as (_ & _ & P & U & _).
  pose proof (finish_plain 1 s "" Hs Hne eq_refl) as F1.
  pose proof (finish_plain (-1) s "" Hs Hne eq_refl) as F2.
  rewrite app_empty_r in *. rewrite Z.mul_1_l in F1.
  replace (-1 * hex_value 0 s) with (- hex_value 0 s) in F2 by lia. auto.
Qed.

Lemma int_decorated (s : string) :
  all_hex s = true -> s <> "" ->
  Py.int ("0x" ++ s) hex_radix = Ok (hex_value 0 s)
  /\ Py.int ("0X" ++ s) hex_radix = Ok (hex_value 0 s)
  /\ Py.int ("+" ++ s) hex_radix = Ok (hex_value 0 s)
  /\ Py.int ("-" ++ s) hex_radix = Ok (- hex_value 0 s).
Proof.
  intros Hs Hne. destruct (plain_start_bare s Hs Hne) as (U & P & F1 & F2).
  rewrite !int_finish. cbn [append Py.skip_spaces Py.take_sign fst snd].
  change (Py.isspace "0") with false. change (Py.isspace "+") with false.
  change (Py.isspace "-") with false. cbv iota.
  cbn [Py.take_sign Ascii.eqb Bool.eqb fst snd]. cbv iota. cbn [fst snd].
  rewrite P. unfold Py.take_prefix at 1 2.
  cbn [Ascii.eqb Bool.eqb andb orb Z.eqb Pos.eqb]. rewrite U. auto.
Qed.

(** X6. A plus sign or the prefix "0x" (or "0X") in front of a
    non-empty message of hex digits is accepted and changes nothing. *)
Theorem sign_and_prefix_ignored (message : string) :
  all_hex message = true -> message <> "" ->
  crc16_wmbus ("0x" ++ message) = crc16_wmbus message
  /\ crc16_wmbus ("0X" ++ message) = crc16_wmbus message
  /\ crc16_wmbus ("+" ++ message) = crc16_wmbus message.
Proof.
  intros Hs Hne. destruct (int_decorated message Hs Hne) as (E1 & E2 & E3 & _).
  unfold crc16_wmbus. rewrite E1, E2, E3, int_all_hex by assumption. auto.
Qed.

Lemma sign_and_prefix_ignored_witness :
  crc16_wmbus ("0x" ++ data2) = crc16_wmbus data2
  /\ crc16_wmbus ("0X" ++ data2) = crc16_wmbus data2
  /\ crc16_wmbus ("+" ++ data2) = crc16_wmbus data2.
Proof.
  apply (sign_and_prefix_ignored data2); [vm_compute; reflexivity | discriminate].
Defined.

Lemma int_underscore (a b : string) :
  all_hex a = true -> a <> "" -> all_hex b = true -> b <> "" ->
  Py.int (a ++ String "_" b) hex_radix = Ok (hex_value 0 (a ++ b)).
Proof.
  intros Ha Hna Hb Hnb. rewrite int_finish.
  destruct a as [ | c a]; [congruence | ].
  pose proof Ha as Ha'. simpl in Ha'. apply andb_prop in Ha' as [Hc Ha'].
  destruct (hex_digit_plain c Hc) as (Sp & Us & Pl & Mi & _).
  cbn [append Py.skip_spaces]. rewrite Sp. cbn [Py.take_sign]. rewrite Pl, Mi.
  cbn [fst snd].
  assert (P : Py.take_prefix 16 (String c (a ++ String "_" b))
              = String c (a ++ String "_" b)).
  { unfold Py.take_prefix. destruct a as [ | c1 a]; cbn [append].
    - simpl. rewrite andb_false_r. reflexivity.
    - simpl in Ha'. apply andb_prop in Ha' as [Hc1 _].
      destruct (hex_digit_plain c1 Hc1) as (_ & _ & _ & _ & X1 & X2).
      rewrite X1, X2. simpl. rewrite andb_false_r. reflexivity. }
  rewrite P. unfold finish. cbn [Py.starts_with_underscore]. rewrite Us.
  pose proof (scan_hex_underscore (String c a) b "" 0 false Ha Hna Hb Hnb eq_refl) as S.
  rewrite app_empty_r in S. cbn [append] in S. rewrite S.
  cbn [Py.skip_spaces]. rewrite Z.mul_1_l. reflexivity.
Qed.

(** X7. A single underscore between two hex digits is accepted and
    skipped: the message has the checksum of the digits without it. *)
Theorem inner_underscore_ignored (a b : string) :
  all_hex a = true -> a <> "" -> all_hex b = true -> b <> "" ->
  crc16_wmbus (a ++ String "_" b) = crc16_wmbus (a ++ b).
Proof.
  intros Ha Hna Hb Hnb. unfold crc16_wmbus.
  rewrite int_underscore by assumption.
  rewrite (int_all_hex (a ++ b)).
  - reflexivity.
  - apply app_nonempty. assumption.
  - rewrite all_hex_app, Ha, Hb. reflexivity.
Qed.

Lemma inner_underscore_ignored_witness :
  crc16_wmbus ("79138C" ++ String "_" "4491CE") = crc16_wmbus ("79138C" ++ "4491CE").
Proof.
  apply (inner_underscore_ignored "79138C" "4491CE");
    (vm_compute; reflexivity) || discriminate.
Defined.

(** ** A minus sign *)

Lemma mod_lxor (a b n : Z) :
  0 <= n -> Z.lxor a b mod 2 ^ n = Z.lxor (a mod 2 ^ n) (b mod 2 ^ n).
Proof.
  intros Hn. rewrite <- !Z.land_ones by assumption.
  apply Z.bits_inj'. intros k Hk.
  rewrite Z.lxor_spec, !Z.land_spec, Z.lxor_spec.
  destruct (Z.testbit (Z.ones n) k); rewrite ?andb_true_r, ?andb_false_r; reflexivity.
Qed.

(** The loop on a negative start: the sign counts as one more bit, and
    the first pass takes it away. *)
Lemma divide_negative (v : Z) :
  0 < v ->
  divide (Z.shiftl (- v) 16) = divide (Z.shiftl (2 ^ (Z.log2 v + 2) - v) 16).
Proof.
  intros Hv. rewrite !Z.shiftl_mul_pow2 by lia.
  pose proof (Z.log2_nonneg v) as Ln.
  pose proof (Z.log2_spec v Hv) as [L1 L2].
  set (n := Z.log2 v + 17).
  assert (P16 : 2 ^ n = 2 ^ (Z.succ (Z.log2 v)) * 2 ^ 16).
  { rewrite <- Z.pow_add_r by lia. f_equal. unfold n. lia. }
  assert (P17 : 2 ^ (Z.log2 v + 2) * 2 ^ 16 = 2 * 2 ^ n).
  { rewrite <- Z.pow_add_r, <- Z.pow_succ_r by lia. f_equal. unfold n. lia. }
  assert (Hpos : 0 < 2 ^ 16) by reflexivity.
  set (m := - v * 2 ^ 16).
  set (m' := (2 ^ (Z.log2 v + 2) - v) * 2 ^ 16).
  assert (Em' : m' = m + 2 * 2 ^ n) by (unfold m, m'; lia).
  assert (Bm : - 2 ^ n < m < 0) by (unfold m; nia).
  assert (Bm' : 2 ^ n <= m' < 2 ^ (Z.succ n)).
  { rewrite Z.pow_succ_r by (unfold n; lia). lia. }
  assert (Lm : Z.log2 (- m) = n - 1).
  { apply Z.log2_unique; [unfold n; lia | ].
    replace (Z.succ (n - 1)) with n by lia.
    replace (2 ^ (n - 1)) with (2 ^ Z.log2 v * 2 ^ 16)
      by (rewrite <- Z.pow_add_r by lia; f_equal; unfold n; lia).
    unfold m. nia. }
  assert (Lm' : Z.log2 m' = n) by (apply Z.log2_unique; [unfold n; lia | exact Bm']).
  unfold divide, g_bitlen, crc_bits. change (16 - 1) with 15.
  rewrite m_bitlen_neg, m_bitlen_pos by lia. rewrite Lm, Lm'.
  replace (n - 1 + 2 - 1) with n by lia. replace (n + 1 - 1) with n by lia.
  rewrite range_down_cons by (unfold n; lia). cbn [for_loop].
  rewrite !loop_body_eq by (unfold n; lia).
  rewrite (bit_set_neg m n Bm).
  assert (T : Z.testbit m' n = true).
  { rewrite <- Lm'. apply Z.bit_log2. lia. }
  rewrite T.
  rewrite (mod_lxor m), (mod_lxor m') by (unfold n; lia).
  replace (m' mod 2 ^ n) with (m mod 2 ^ n); [reflexivity | ].
  rewrite Em'. symmetry. apply Z_mod_plus_full.
Qed.

(** X8. A minus sign is not rejected.  In front of digits that spell
    v > 0 it gives the checksum of the message value
    2 ^ (bit length of v + 1) - v; in front of digits that spell zero it
    changes nothing. *)
Theorem minus_sign_accepted (message other : string) :
  all_hex message = true -> message <> "" ->
  (0 < hex_value 0 message ->
   Py.int other hex_radix
   = Ok (2 ^ (Z.log2 (hex_value 0 message) + 2) - hex_value 0 message) ->
   crc16_wmbus ("-" ++ message) = crc16_wmbus other)
  /\ (hex_value 0 message = 0 ->
      crc16_wmbus ("-" ++ message) = crc16_wmbus message).
Proof.
  intros Hs Hne. destruct (int_decorated message Hs Hne) as (_ & _ & _ & E).
  unfold crc16_wmbus. rewrite E. split.
  - intros Hv Eo. rewrite Eo. cbn [bind].
    change (Py.lshift ?x crc_bits) with (Ok (Z.shiftl x 16)). cbn [bind].
    rewrite divide_negative by assumption. reflexivity.
  - intros Hz. rewrite int_all_hex, Hz by assumption. reflexivity.
Qed.

Lemma minus_sign_accepted_witness :
  crc16_wmbus "-1" = crc16_wmbus "3" /\ crc16_wmbus "-00" = crc16_wmbus "00".
Proof.
  split.
  - apply (proj1 (minus_sign_accepted "1" "3" eq_refl ltac:(discriminate)));
      vm_compute; reflexivity.
  - apply (proj2 (minus_sign_accepted "00" "" eq_refl ltac:(discriminate))).
    reflexivity.
Defined.

(** * The remainder as a polynomial remainder *)

Lemma reduce_is_congruent (k : nat) :
  forall x, exists ks,
    Forall (fun s => 0 <= s) ks /\ reduce k x = Z.lxor x (LongDivision.multiple ks).
Proof.
  induction k as [ | k IH]; intros x.
  - exists []. split; [constructor | ]. simpl. rewrite Z.lxor_0_r. reflexivity.
  - rewrite reduce_succ.
    destruct (IH (LongDivision.step x (16 + Z.of_nat k))) as (ks & F & E).
    rewrite E. unfold LongDivision.step.
    destruct (Z.testbit x (16 + Z.of_nat k)).
    + exists (Z.of_nat k :: ks). split; [constructor; [lia | exact F] | ].
      cbn [LongDivision.multiple fold_right].
      replace (16 + Z.of_nat k - 16) with (Z.of_nat k) by lia.
      rewrite Z.lxor_assoc. reflexivity.
    + exists ks. split; [exact F | reflexivity].
Qed.

Lemma reduce_generator (s K : nat) :
  (s + 1 <= K)%nat ->
  0 <= Z.shiftl LongDivision.generator (Z.of_nat s) < 2 ^ (16 + Z.of_nat K)
  /\ reduce K (Z.shiftl LongDivision.generator (Z.of_nat s)) = 0.
Proof.
  intros H. rewrite Z.shiftl_mul_pow2 by lia.
  destruct (reduce_shifted s 1 LongDivision.generator) as (B & Z0 & _);
    [rewrite generator_value; change (2 ^ (16 + Z.of_nat 1)) with 131072; lia | ].
  specialize (Z0 eq_refl).
  pose proof (pow2_mono (16 + Z.of_nat (s + 1)) (16 + Z.of_nat K) ltac:(lia)).
  split; [lia | ].
  rewrite (reduce_from_above (s + 1) K); [exact Z0 | exact H | exact B].
Qed.

Lemma above_le (ks : list Z) (K : nat) :
  (above ks <= K)%nat -> Forall (fun s => 0 <= s) ks ->
  0 <= LongDivision.multiple ks < 2 ^ (16 + Z.of_nat K)
  /\ reduce K (LongDivision.multiple ks) = 0.
Proof.
  intros HK F. induction F as [ | s ks Hs F IH].
  - change (LongDivision.multiple []) with 0. split.
    + pose proof (Z.pow_pos_nonneg 2 (16 + Z.of_nat K)). lia.
    + rewrite (reduce_from_above 0 K 0); [reflexivity | lia | ].
      change (2 ^ (16 + Z.of_nat 0)) with 65536. lia.
  - unfold above in HK. cbn [fold_right] in HK.
    destruct IH as (B & Z0); [unfold above; lia | ].
    cbn [LongDivision.multiple fold_right]. fold (LongDivision.multiple ks).
    destruct (reduce_generator (Z.to_nat s) K ltac:(lia)) as (Bg & Zg).
    rewrite Z2Nat.id in Bg, Zg by assumption.
    split; [apply lxor_bound; assumption | ].
    rewrite reduce_linear, Zg, Z0. reflexivity.
Qed.

(** X10. The remainder the loop leaves on a value [m] that is not
    negative is the remainder of [m] modulo g(x) in GF(2)[x]: it is below
    2^16, it differs from [m] by a XOR of shifted generators, and it is the
    only number for which both hold. *)
Theorem divide_is_remainder (m : Z) :
  0 <= m ->
  (exists r ks,
     divide m = Ok r /\ 0 <= r < 2 ^ 16 /\ Forall (fun s => 0 <= s) ks
     /\ r = Z.lxor m (LongDivision.multiple ks))
  /\ (forall r ks,
        0 <= r < 2 ^ 16 -> Forall (fun s => 0 <= s) ks ->
        r = Z.lxor m (LongDivision.multiple ks) -> divide m = Ok r).
Proof.
  intros Hm. split.
  - pose proof (cover_l m 0 Hm ltac:(lia)) as C.
    destruct (reduce_is_congruent (cover m 0) m) as (ks & F & E).
    exists (reduce (cover m 0) m), ks.
    split; [apply divide_reduce; exact C | ].
    split; [apply reduce_bound; exact C | ]. split; assumption.
  - intros r ks Hr F E.
    set (K := (above ks + cover m 0)%nat).
    destruct (above_le ks K ltac:(unfold K; lia) F) as (Bx & Zx).
    assert (Cm : 0 <= m < 2 ^ (16 + Z.of_nat K)).
    { pose proof (cover_l m 0 Hm ltac:(lia)).
      pose proof (pow2_mono (16 + Z.of_nat (cover m 0)) (16 + Z.of_nat K)
                    ltac:(unfold K; lia)). lia. }
    rewrite (divide_reduce K m Cm). f_equal.
    assert (Em : m = Z.lxor r (LongDivision.multiple ks)).
    { rewrite E, Z.lxor_assoc, Z.lxor_nilpotent, Z.lxor_0_r. reflexivity. }
    rewrite Em at 1. rewrite reduce_linear, Zx, Z.lxor_0_r.
    apply (reduce_from_above 0 K r); [lia | exact Hr].
Qed.

Lemma divide_is_remainder_witness :
  (exists r ks,
     divide 0x14440000 = Ok r /\ 0 <= r < 2 ^ 16 /\ Forall (fun s => 0 <= s) ks
     /\ r = Z.lxor 0x14440000 (LongDivision.multiple ks))
  /\ divide (Z.lxor 0x1234 (LongDivision.multiple [3; 7])) = Ok 0x1234.
Proof.
  split.
  - apply (proj1 (divide_is_remainder 0x14440000 ltac:(lia))).
  - apply (proj2 (divide_is_remainder
                    (Z.lxor 0x1234 (LongDivision.multiple [3; 7])) ltac:(vm_compute; discriminate))
             0x1234 [3; 7]).
    + change (2 ^ 16) with 65536. lia.
    + repeat constructor; lia.
    + vm_compute. reflexivity.
Defined.

(** * The bit length *)

(** X9. The count [len(bin(m)[2:])] is the number of bits of a positive
    [m]; it is 1 for 0, and on a negative [m] it is one more than on
    [- m], because the slice then keeps the "b". *)
Theorem m_bitlen_counts_bits (m : Z) :
  (0 < m -> 2 ^ (m_bitlen m - 1) <= m < 2 ^ m_bitlen m)
  /\ (m = 0 -> m_bitlen m = 1)
  /\ (m < 0 -> m_bitlen m = m_bitlen (- m) + 1).
Proof.
  split; [ | split].
  - intros H. rewrite m_bitlen_pos by assumption.
    replace (Z.log2 m + 1 - 1) with (Z.log2 m) by lia.
    replace (Z.log2 m + 1) with (Z.succ (Z.log2 m)) by lia.
    apply Z.log2_spec. assumption.
  - intros ->. reflexivity.
  - intros H. rewrite m_bitlen_neg, m_bitlen_pos by lia. lia.
Qed.

Lemma m_bitlen_counts_bits_witness :
  (2 ^ (m_bitlen 0x10000 - 1) <= 0x10000 < 2 ^ m_bitlen 0x10000)
  /\ m_bitlen 0 = 1
  /\ m_bitlen (- 0x10000) = m_bitlen (- - 0x10000) + 1.
Proof.
  split; [ | split].
  - apply (proj1 (m_bitlen_counts_bits 0x10000)). lia.
  - apply (proj1 (proj2 (m_bitlen_counts_bits 0))). reflexivity.
  - apply (proj2 (proj2 (m_bitlen_counts_bits (- 0x10000)))). lia.
Defined.

(** * The returned text *)

Lemma hex_digit_lower (d : Z) : 0 <= d < 16 -> is_lower_hex (Py.hex_digit d) = true.
Proof.
  intros H. rewrite <- (Z2Nat.id d) by lia.
  assert (Hn : (Z.to_nat d < 16)%nat) by lia.
  set (n := Z.to_nat d) in *. clearbody n.
  do 16 (destruct n as [ | n]; [reflexivity | ]). lia.
Qed.

Lemma hexlify_lower (bs : list byte) : all_lower_hex (Py.hexlify bs) = true.
Proof.
  induction bs as [ | b bs IH]; [reflexivity | ].
  cbn [Py.hexlify all_lower_hex].
  destruct (nibbles _ (byte_value_bound b)) as (Hh & Hl & _).
  rewrite !hex_digit_lower, IH by assumption. reflexivity.
Qed.

(** X11. For every message that [int] accepts, the returned text is
    four characters, digits and small letters a to f only; read back as a
    base-16 number it is the complemented remainder with its two bytes
    swapped. *)
Theorem output_read_back (message : string) (v : Z) :
  Py.int message hex_radix = Ok v ->
  exists raw out,
    divide (Z.shiftl v crc_bits) = Ok raw
    /\ crc16_wmbus message = Ok out
    /\ String.length out = 4%nat
    /\ all_lower_hex out = true
    /\ Py.int out hex_radix
       = Ok (Z.lxor raw 0xFFFF mod 256 * 256 + Z.lxor raw 0xFFFF / 256).
Proof.
  intros E. destruct (crc16_wmbus_accepted message v E) as (raw & D & B & R).
  exists raw, (Py.hexlify (serialize_le (complement raw))).
  split; [exact D | ]. split; [exact R | ]. split; [reflexivity | ].
  split; [apply hexlify_lower | ].
  rewrite int_all_hex.
  - rewrite hex_value_serialize by (apply complement_bound; exact B). reflexivity.
  - discriminate.
  - apply all_hex_hexlify.
Qed.

Lemma output_read_back_witness :
  exists raw out,
    divide (Z.shiftl 0x1444AE0C7856341201078C2027780B13436587 crc_bits) = Ok raw
    /\ crc16_wmbus data1 = Ok out
    /\ String.length out = 4%nat
    /\ all_lower_hex out = true
    /\ Py.int out hex_radix
       = Ok (Z.lxor raw 0xFFFF mod 256 * 256 + Z.lxor raw 0xFFFF / 256).
Proof.
  apply (output_read_back data1 0x1444AE0C7856341201078C2027780B13436587).
  vm_compute. reflexivity.
Defined.

(** * Texts that are rejected *)

(** The scan runs over a stretch of digits and goes on behind it. *)
Lemma scan_over_digits (a t : string) :
  forall prev_us acc any,
    all_hex a = true -> a <> "" ->
    Py.scan_digits 16 (a ++ t) prev_us acc any
    = Py.scan_digits 16 t false (hex_value acc a) true.
Proof.
  induction a as [ | c a IH]; intros prev_us acc any Ha Hne; [congruence | ].
  simpl in Ha. apply andb_prop in Ha as [Hc Ha].
  destruct (hex_digit_plain c Hc) as (_ & U & _).
  cbn [append Py.scan_digits hex_value]. rewrite U.
  unfold is_hex_digit in Hc. rewrite Hc.
  destruct a as [ | c' a]; [reflexivity | ].
  apply IH; [assumption | discriminate].
Qed.

Lemma int_digits_then (a t : string) :
  all_hex a = true -> a <> "" ->
  (match t with String c _ => Ascii.eqb c "x" || Ascii.eqb c "X" | _ => false end)
  = false ->
  Py.int (a ++ t) hex_radix
  = match Py.scan_digits 16 t false (hex_value 0 a) true with
    | Some (v, true, rest) =>
        match Py.skip_spaces rest with
        | EmptyString => Ok (1 * v)
        | String _ _ => Raise ValueError
        end
    | _ => Raise ValueError
    end.
Proof.
  intros Ha Hne Ht. rewrite int_finish.
  destruct a as [ | c a]; [congruence | ].
  pose proof Ha as Ha'. simpl in Ha'. apply andb_prop in Ha' as [Hc Ha'].
  destruct (hex_digit_plain c Hc) as (Sp & Us & Pl & Mi & _).
  cbn [append Py.skip_spaces]. rewrite Sp. cbn [Py.take_sign]. rewrite Pl, Mi.
  cbn [fst snd].
  assert (P : Py.take_prefix 16 (String c (a ++ t)) = String c (a ++ t)).
  { unfold Py.take_prefix. destruct a as [ | c1 a]; cbn [append].
    - destruct t as [ | c1 t]; [reflexivity | ].
      rewrite Ht. simpl. rewrite andb_false_r. reflexivity.
    - simpl in Ha'. apply andb_prop in Ha' as [Hc1 _].
      destruct (hex_digit_plain c1 Hc1) as (_ & _ & _ & _ & X1 & X2).
      rewrite X1, X2. simpl. rewrite andb_false_r. reflexivity. }
  rewrite P. unfold finish. cbn [Py.starts_with_underscore]. rewrite Us.
  change (String c (a ++ t)) with (String c a ++ t).
  rewrite scan_over_digits by assumption.
  destruct (Py.scan_digits 16 t false _ true) as [[[v any] rest] | ]; reflexivity.
Qed.

Lemma skip_not_all_space (t : string) :
  all_space t = false -> exists c t', Py.skip_spaces t = String c t'.
Proof.
  induction t as [ | c t IH]; simpl; [discriminate | ].
  destruct (Py.isspace c); simpl; [exact IH | ]. intros _. eauto.
Qed.

(** X12. Hex digits, then white space, then anything that is not white
    space only are rejected with [ValueError]: so is every dump with its
    bytes spaced out, whatever the number of gaps. *)
Theorem inner_space_rejected (a ws t : string) :
  all_hex a = true -> a <> "" -> all_space ws = true -> ws <> "" ->
  all_space t = false ->
  crc16_wmbus (a ++ ws ++ t) = Raise ValueError.
Proof.
  intros Ha Hna Hw Hnw Ht.
  apply (crc16_wmbus_rejected _ ValueError).
  destruct ws as [ | w ws]; [congruence | ].
  pose proof Hw as Hw'. simpl in Hw'. apply andb_prop in Hw' as [Hw0 Hw'].
  destruct (space_plain w Hw0) as (U & D & X1 & X2).
  rewrite int_digits_then; [ | assumption | assumption | ].
  - cbn [append Py.scan_digits]. rewrite U, D.
    change (String w (ws ++ t)) with (String w ws ++ t).
    rewrite skip_all_space by assumption.
    destruct (skip_not_all_space t Ht) as (c & t' & ->). reflexivity.
  - cbn [append]. rewrite X1, X2. reflexivity.
Qed.

Lemma inner_space_rejected_witness :
  crc16_wmbus ("14" ++ " " ++ "44 AE 0C") = Raise ValueError.
Proof.
  apply (inner_space_rejected "14" " " "44 AE 0C");
    (vm_compute; reflexivity) || discriminate.
Defined.



(** X14. A text of white space only, the empty text among them, with or
    without a sign, holds no digit and is rejected: [ValueError]. *)
Theorem blank_text_rejected (ws : string) :
  all_space ws = true ->
  crc16_wmbus ws = Raise ValueError
  /\ crc16_wmbus (ws ++ "+") = Raise ValueError
  /\ crc16_wmbus (ws ++ "-") = Raise ValueError.
Proof.
  intros Hw. repeat split; apply (crc16_wmbus_rejected _ ValueError);
    rewrite int_finish.
  - rewrite skip_only_space by assumption. reflexivity.
  - rewrite skip_all_space by assumption. reflexivity.
  - rewrite skip_all_space by assumption. reflexivity.
Qed.

Lemma blank_text_rejected_witness :
  crc16_wmbus "  " = Raise ValueError
  /\ crc16_wmbus ("  " ++ "+") = Raise ValueError
  /\ crc16_wmbus ("  " ++ "-") = Raise ValueError.
Proof. apply (blank_text_rejected "  "). reflexivity. Defined.
